(** * Session reuse, capability matching and connect-error classification
      of the selenium-webdriver transport

    Shallow embedding of [lib/transport/selenium-webdriver/index.js]
    (class [Transport]) and of the Appium base server
    ([extractAppiumOptions]).

    Conventions of the embedding
    - a JavaScript value that may be [undefined] is an [option]; [None] is
      [undefined];
    - a plain object is an association list in key-enumeration order, with
      the assignment and [delete] of JavaScript written out;
    - [async] methods run to completion one after the other (one worker,
      cooperative scheduling): a method is a state transformer that either
      returns a value or throws;
    - what the collaborators answer (driver service, remote end, session
      export) is given by a [World]; every call to one of them is logged in
      the [trace] of the state;
    - wall-clock measurements ([new Date()]), the spinner and the text
      printed on the console are observability only and are not modelled;
    - the transport is a concrete one: its [ServiceBuilder] getter is
      overridden, so that [this.serviceName] is a string. *)

From Stdlib Require Import String Ascii List Bool ZArith NArith DecimalString Lia.
Import ListNotations.
Open Scope string_scope.
Set Warnings "-register-all".

(** ** Strings *)

Definition lower_ascii (c : ascii) : ascii :=
  let n := nat_of_ascii c in
  if (65 <=? n)%nat && (n <=? 90)%nat then ascii_of_nat (n + 32) else c.

(** [s.toLowerCase()], on the ASCII letters. *)
Fixpoint toLowerCase (s : string) : string :=
  match s with
  | EmptyString => EmptyString
  | String c r => String (lower_ascii c) (toLowerCase r)
  end.

(** [s.includes(sub)] *)
Fixpoint includes (s sub : string) : bool :=
  String.prefix sub s
  || match s with
     | EmptyString => false
     | String _ r => includes r sub
     end.

(** A non-empty string is truthy. *)
Definition nonempty (s : string) : bool := negb (String.eqb s EmptyString).

Definition dquote : string := String "034"%char EmptyString.
Definition newline : string := String "010"%char EmptyString.

(** [`${n}`] for a number that may be [undefined]. *)
Definition template_of_number (n : option N) : string :=
  match n with
  | Some k => NilEmpty.string_of_uint (N.to_uint k)
  | None => "undefined"
  end.

(** ** Capability values and plain objects *)

(** Capability values: strings, booleans and nested maps. *)
Inductive Value : Type :=
| VStr (s : string)
| VBool (b : bool)
| VObj (o : list (string * Value)).

(** A plain object, own keys in enumeration order. *)
Definition Obj : Type := list (string * Value).

(** A value that may be [undefined]. *)
Definition JsVal : Type := option Value.

(** [o[k]] *)
Fixpoint obj_get (o : Obj) (k : string) : JsVal :=
  match o with
  | [] => None
  | (k', v) :: r => if String.eqb k' k then Some v else obj_get r k
  end.

(** [o[k] = v]: an existing key keeps its place, a new key goes last. *)
Fixpoint obj_set (o : Obj) (k : string) (v : Value) : Obj :=
  match o with
  | [] => [(k, v)]
  | (k', v') :: r =>
      if String.eqb k' k then (k, v) :: r else (k', v') :: obj_set r k v
  end.

(** [delete o[k]] *)
Fixpoint obj_delete (o : Obj) (k : string) : Obj :=
  match o with
  | [] => []
  | (k', v) :: r =>
      if String.eqb k' k then obj_delete r k else (k', v) :: obj_delete r k
  end.

(** [Object.keys(o)] *)
Definition obj_keys (o : Obj) : list string := map fst o.

(** Truthiness: [undefined], the empty string and [false] are falsy. *)
Definition truthy (v : JsVal) : bool :=
  match v with
  | None => false
  | Some (VStr s) => nonempty s
  | Some (VBool b) => b
  | Some (VObj _) => true
  end.

(** [a || b] on values. *)
Definition js_or (a b : JsVal) : JsVal := if truthy a then a else b.

(** [a === b]; the objects compared here come from different sources
    (settings and session), so two objects are never the same reference. *)
Definition strict_eq (a b : JsVal) : bool :=
  match a, b with
  | None, None => true
  | Some (VStr x), Some (VStr y) => String.eqb x y
  | Some (VBool x), Some (VBool y) => Bool.eqb x y
  | _, _ => false
  end.

(** Modelled from the spec: [isObject] of [lib/utils] is missing from the
    source files; the data model has strings, booleans and nested maps as
    capability values, and the grouping key holds a nested map. *)
Definition isObject (v : JsVal) : bool :=
  match v with
  | Some (VObj _) => true
  | _ => false
  end.

(** ** AppiumBaseServer.extractAppiumOptions *)

Module Appium.

Definition options_key : string := "appium:options".
Definition vendor_prefix : string := "appium:".

(** The key under which one entry of the options bag is stored. *)
Definition namespaced (key : string) : string :=
  if String.prefix vendor_prefix key then key else vendor_prefix ++ key.

(** One turn of the [for ... of Object.keys(appiumOptions)] loop. *)
Definition copy_option (appiumOptions : Obj) (desired : Obj) (key : string)
  : Obj :=
  match obj_get appiumOptions key with
  | Some value => obj_set desired (namespaced key) value
  | None => desired
  end.

(** [extractAppiumOptions()], as a function of [this.desiredCapabilities]. *)
Definition extractAppiumOptions (desiredCapabilities : Obj) : Obj :=
  match obj_get desiredCapabilities options_key with
  | Some (VObj appiumOptions) =>
      obj_delete
        (fold_left (copy_option appiumOptions) (obj_keys appiumOptions)
                   desiredCapabilities)
        options_key
  | _ => desiredCapabilities
  end.

End Appium.

(** ** Errors *)

(** The classes of the errors the transport tells apart with [instanceof]:
    [Error] and the [error] module of selenium-webdriver, where every class
    below [JsError] extends [WebDriverError] directly. *)
Inductive ErrorClass : Type :=
| JsError
| WebDriverError
| StaleElementReferenceError
| ElementClickInterceptedError
| InvalidElementStateError
| ElementNotInteractableError
| NoSuchWindowError
| NoSuchSessionError
| OtherWebDriverError.

Definition ErrorClass_eqb (a b : ErrorClass) : bool :=
  match a, b with
  | JsError, JsError
  | WebDriverError, WebDriverError
  | StaleElementReferenceError, StaleElementReferenceError
  | ElementClickInterceptedError, ElementClickInterceptedError
  | InvalidElementStateError, InvalidElementStateError
  | ElementNotInteractableError, ElementNotInteractableError
  | NoSuchWindowError, NoSuchWindowError
  | NoSuchSessionError, NoSuchSessionError
  | OtherWebDriverError, OtherWebDriverError => true
  | _, _ => false
  end.

(** [c] is [parent] or extends it. *)
Definition extends (c parent : ErrorClass) : bool :=
  match parent with
  | JsError => true
  | WebDriverError => negb (ErrorClass_eqb c JsError)
  | _ => ErrorClass_eqb c parent
  end.

(** The name the constructor of the class gives to its instances
    ([this.name = this.constructor.name]). *)
Definition className (c : ErrorClass) : string :=
  match c with
  | JsError => "Error"
  | WebDriverError => "WebDriverError"
  | StaleElementReferenceError => "StaleElementReferenceError"
  | ElementClickInterceptedError => "ElementClickInterceptedError"
  | InvalidElementStateError => "InvalidElementStateError"
  | ElementNotInteractableError => "ElementNotInteractableError"
  | NoSuchWindowError => "NoSuchWindowError"
  | NoSuchSessionError => "NoSuchSessionError"
  | OtherWebDriverError => "OtherWebDriverError"
  end.

(** An error object, with the properties the transport reads or writes. *)
Record ErrorObj : Type := mkError {
  cls : ErrorClass;
  name : string;
  message : string;
  code : option string;
  sessionCreate : option bool;
  detailedErr : option string;
  extraDetail : option string;
  showTrace : option bool;
  reportShown : option bool;
  displayed : option bool
}.

(** [new Error(msg)] *)
Definition Error_new (msg : string) : ErrorObj :=
  mkError JsError "Error" msg None None None None None None None.

(** The [TypeError] of a call on a value that has no such method. *)
Definition TypeError_new (msg : string) : ErrorObj :=
  mkError JsError "TypeError" msg None None None None None None None.

(** [e.code === c] *)
Definition code_is (e : ErrorObj) (c : string) : bool :=
  match code e with
  | Some x => String.eqb x c
  | None => false
  end.

(** [e instanceof c] *)
Definition instanceof (e : ErrorObj) (c : ErrorClass) : bool :=
  extends (cls e) c.

Definition set_message (e : ErrorObj) (m : string) : ErrorObj :=
  mkError (cls e) (name e) m (code e) (sessionCreate e) (detailedErr e)
          (extraDetail e) (showTrace e) (reportShown e) (displayed e).

Definition set_sessionCreate (e : ErrorObj) (b : bool) : ErrorObj :=
  mkError (cls e) (name e) (message e) (code e) (Some b) (detailedErr e)
          (extraDetail e) (showTrace e) (reportShown e) (displayed e).

Definition set_detailedErr (e : ErrorObj) (d : string) : ErrorObj :=
  mkError (cls e) (name e) (message e) (code e) (sessionCreate e) (Some d)
          (extraDetail e) (showTrace e) (reportShown e) (displayed e).

Definition set_extraDetail (e : ErrorObj) (d : string) : ErrorObj :=
  mkError (cls e) (name e) (message e) (code e) (sessionCreate e)
          (detailedErr e) (Some d) (showTrace e) (reportShown e) (displayed e).

Definition set_showTrace (e : ErrorObj) (b : bool) : ErrorObj :=
  mkError (cls e) (name e) (message e) (code e) (sessionCreate e)
          (detailedErr e) (extraDetail e) (Some b) (reportShown e)
          (displayed e).

Definition set_reportShown (e : ErrorObj) (b : bool) : ErrorObj :=
  mkError (cls e) (name e) (message e) (code e) (sessionCreate e)
          (detailedErr e) (extraDetail e) (showTrace e) (Some b)
          (displayed e).

Definition set_displayed (e : ErrorObj) (b : bool) : ErrorObj :=
  mkError (cls e) (name e) (message e) (code e) (sessionCreate e)
          (detailedErr e) (extraDetail e) (showTrace e) (reportShown e)
          (Some b).

(** What a method can throw: an error object as it is, or one of the two
    dedicated errors of [lib/utils/mobile.js], kept as the constructor call
    that built it. *)
Inductive Thrown : Type :=
| Plain (e : ErrorObj)
| AndroidConnectionError (e : ErrorObj)
| IosSessionNotCreatedError (e : ErrorObj) (desiredCapabilities : Obj).

(** The result of running a method: a value, or something thrown. *)
Inductive Outcome (X A : Type) : Type :=
| Return (a : A)
| Throw (x : X).
Arguments Return {X A} a.
Arguments Throw {X A} x.

(** Sequencing of computations that may throw. *)
Definition obind {X A B} (o : Outcome X A) (k : A -> Outcome X B)
  : Outcome X B :=
  match o with
  | Return a => k a
  | Throw x => Throw x
  end.

Declare Scope outcome_scope.
Delimit Scope outcome_scope with outcome.
Notation "'let?' x ':=' o 'in' k" := (obind o (fun x => k))
  (at level 10, x name, o at level 100, k at level 200) : outcome_scope.

(** ** Settings and what the transport requires *)

Record WebdriverSettings : Type := {
  host : string;
  port : option N;
  start_process : bool;
  debug_timing : bool;
  log_file_name : option string
}.

(** [this.settings].  [timeout_knobs] are the named timeout settings of the
    configuration; [selenium_start_process] stands for
    [settings.selenium && settings.selenium.start_process]. *)
Record Settings : Type := {
  desiredCapabilities : Obj;
  webdriver : WebdriverSettings;
  selenium_start_process : bool;
  output : bool;
  testWorkersEnabled : bool;
  timeout_knobs : list (string * Z)
}.

(** The functions and tables required from modules that are missing from
    the source files: the platform helpers of [lib/utils/mobile.js] and the
    table [IosSessionErrors] of [lib/transport/errors] (here: whether the
    table has an entry under a name). *)
Record Imports : Type := {
  isIos : Obj -> bool;
  isAndroid : Obj -> bool;
  isMobile : Obj -> bool;
  IosSessionErrors : string -> bool
}.

(** The transport instance: its settings, the name of its driver service,
    what [this.api] answers and the messages of
    [getRetryableErrorMessages()], which the base transport provides. *)
Record Instance : Type := {
  settings : Settings;
  serviceName : string;
  api_isSafari : bool;
  api_isIOS : bool;
  getRetryableErrorMessages : list string
}.

(** The capabilities of an existing session: the [Capabilities] map of
    selenium-webdriver, read with [get(key)] and [getBrowserName()], or a
    plain object (the serialized form kept in the cache). *)
Inductive ExistingCaps : Type :=
| CapabilitiesMap (entries : Obj)
| PlainCaps (o : Obj).

(** ** Handles, cache slots and the world *)

Definition Driver : Type := nat.
Definition Options : Type := nat.
Definition Argv : Type := nat.

(** A driver service object, with what its accessors answer. *)
Record Service : Type := {
  service_id : nat;
  getOutputFilePath : option string;
  getSettingsFormatted : string
}.

(** [{sessionId, capabilities}], the cached snapshot of the session. *)
Record CachedSessionInfo : Type := {
  sessionId : string;
  capabilities : option ExistingCaps
}.

(** The [sessionInfo] part of what [session.exported()] gives. *)
Record SessionDisplayInfo : Type := {
  platform : option string;
  browserVersion : option string;
  platformVersion : option string;
  browserName : option string;
  appId : option string
}.

(** What [session.exported()] resolves to. *)
Record SessionExports : Type := {
  exp_sessionInfo : option SessionDisplayInfo;
  exp_sessionId : option string;
  exp_capabilities : option ExistingCaps;
  exp_elementKey : option string
}.

(** The session object a driver resolves to. *)
Record Session : Type := {
  getId : Outcome ErrorObj string;
  getCapabilities : Outcome ErrorObj ExistingCaps
}.

(** How a pending promise settles: fulfilled or rejected after so many
    milliseconds, or never. *)
Inductive Settlement (A : Type) : Type :=
| Fulfilled (ms : Z) (a : A)
| Rejected (ms : Z) (e : ErrorObj)
| Pending.
Arguments Fulfilled {A} ms a.
Arguments Rejected {A} ms e.
Arguments Pending {A}.

(** What the collaborators answer during one operation. *)
Record World : Type := {
  createSessionOptions : Argv -> Outcome ErrorObj Options;
  ServiceBuilder_new : Service;
  service_init : Service -> string -> Options -> Outcome ErrorObj unit;
  service_stop : Service -> Outcome ErrorObj unit;
  service_stopped : Service -> bool;
  builder_build : Options -> Outcome ErrorObj Driver;
  driver_getSession : Driver -> Settlement Session;
  serializeCapabilities : ExistingCaps -> Outcome ErrorObj (option ExistingCaps);
  session_exported : option Driver -> Outcome ErrorObj SessionExports
}.

(** The calls made to collaborators. *)
Inductive Event : Type :=
| EvEmit (event : string)
| EvCreateSessionOptions (argv : Argv)
| EvServiceInit (s : Service) (outputFile : string) (o : Options)
| EvServiceStop (s : Service)
| EvGetSession (d : Driver) (timeout : Z)
| EvSessionGetId
| EvSessionGetCapabilities
| EvBuild (o : Options)
| EvSessionExported (d : option Driver).

(** The module-level slots [_driverService], [_driver] and
    [_cachedSessionInfo] behind the static accessors of [Transport], the
    properties of the instance, and the trace of calls. *)
Record State : Type := mkState {
  _driverService : option Service;
  _driver : option Driver;
  _cachedSessionInfo : option CachedSessionInfo;
  this_driver : option Driver;
  this_driverService : option Service;
  this_stopped : bool;
  this_elementKey : option string;
  trace : list Event
}.

Definition initial_state : State :=
  mkState None None None None None false None [].

Definition set_T_driverService (v : option Service) (st : State) : State :=
  mkState v (_driver st) (_cachedSessionInfo st) (this_driver st)
          (this_driverService st) (this_stopped st) (this_elementKey st)
          (trace st).

Definition set_T_driver (v : option Driver) (st : State) : State :=
  mkState (_driverService st) v (_cachedSessionInfo st) (this_driver st)
          (this_driverService st) (this_stopped st) (this_elementKey st)
          (trace st).

Definition set_T_cachedSessionInfo (v : option CachedSessionInfo) (st : State)
  : State :=
  mkState (_driverService st) (_driver st) v (this_driver st)
          (this_driverService st) (this_stopped st) (this_elementKey st)
          (trace st).

Definition set_this_driver (v : option Driver) (st : State) : State :=
  mkState (_driverService st) (_driver st) (_cachedSessionInfo st) v
          (this_driverService st) (this_stopped st) (this_elementKey st)
          (trace st).

Definition set_this_driverService (v : option Service) (st : State) : State :=
  mkState (_driverService st) (_driver st) (_cachedSessionInfo st)
          (this_driver st) v (this_stopped st) (this_elementKey st)
          (trace st).

Definition set_this_stopped (v : bool) (st : State) : State :=
  mkState (_driverService st) (_driver st) (_cachedSessionInfo st)
          (this_driver st) (this_driverService st) v (this_elementKey st)
          (trace st).

Definition set_this_elementKey (v : option string) (st : State) : State :=
  mkState (_driverService st) (_driver st) (_cachedSessionInfo st)
          (this_driver st) (this_driverService st) (this_stopped st) v
          (trace st).

Definition log_event (ev : Event) (st : State) : State :=
  mkState (_driverService st) (_driver st) (_cachedSessionInfo st)
          (this_driver st) (this_driverService st) (this_stopped st)
          (this_elementKey st) (trace st ++ [ev]).

(** ** Methods as state transformers *)

Definition M (A : Type) : Type := State -> Outcome ErrorObj A * State.

Definition ret {A} (a : A) : M A := fun st => (Return a, st).

Definition throw {A} (e : ErrorObj) : M A := fun st => (Throw e, st).

Definition bind {A B} (m : M A) (k : A -> M B) : M B :=
  fun st =>
    match m st with
    | (Return a, st') => k a st'
    | (Throw e, st') => (Throw e, st')
    end.

(** [try { m } catch (err) { handler err }] *)
Definition try_catch {A} (m : M A) (handler : ErrorObj -> M A) : M A :=
  fun st =>
    match m st with
    | (Return a, st') => (Return a, st')
    | (Throw e, st') => handler e st'
    end.

(** [await] of a call whose answer the world gives. *)
Definition await {A} (o : Outcome ErrorObj A) : M A := fun st => (o, st).

Definition gets {A} (f : State -> A) : M A := fun st => (Return (f st), st).

Definition modify (f : State -> State) : M unit :=
  fun st => (Return tt, f st).

Definition call (ev : Event) : M unit := modify (log_event ev).

Declare Scope method_scope.
Delimit Scope method_scope with method.
Notation "x <- m ;; k" := (bind m (fun x => k))
  (at level 61, m at next level, right associativity) : method_scope.
Notation "m ;; k" := (bind m (fun _ => k))
  (at level 61, right associativity) : method_scope.

(** What [createSession] resolves to. *)
Record SessionResult : Type := {
  res_sessionId : option string;
  res_capabilities : option ExistingCaps;
  res_host : string;
  res_port : option N
}.

(** A result handed to the error helpers: an [Error], or an object whose
    [error] property may hold one. *)
Inductive Result : Type :=
| ErrorResult (e : ErrorObj)
| ResultObject (error : option ErrorObj).

Definition isSome {A} (o : option A) : bool :=
  match o with
  | Some _ => true
  | None => false
  end.

(** Truthiness of a string that may be [undefined]. *)
Definition present (s : option string) : bool :=
  match s with
  | Some x => nonempty x
  | None => false
  end.

(** [a || b] on strings that may be [undefined]. *)
Definition str_or (a b : option string) : option string :=
  if present a then a else b.

(** [v?.toLowerCase()] *)
Definition optional_toLowerCase (v : JsVal) : Outcome ErrorObj (option string) :=
  match v with
  | None => Return None
  | Some (VStr s) => Return (Some (toLowerCase s))
  | Some _ => Throw (TypeError_new "toLowerCase is not a function")
  end.

(** [v.toLowerCase()] *)
Definition call_toLowerCase (v : JsVal) : Outcome ErrorObj string :=
  match v with
  | Some (VStr s) => Return (toLowerCase s)
  | _ => Throw (TypeError_new "toLowerCase is not a function")
  end.

(** [a && b && a !== b] *)
Definition differs (a b : JsVal) : bool :=
  truthy a && truthy b && negb (strict_eq a b).

(** [a && b && a !== b] on strings that may be [undefined]. *)
Definition differs_str (a b : option string) : bool :=
  match a, b with
  | Some x, Some y => nonempty x && nonempty y && negb (String.eqb x y)
  | _, _ => false
  end.

(** [Promise.race([p, timeoutPromise])], the timer rejecting after
    [timeout] ms: the promise, which is started before the timer is armed,
    wins when it settles no later than the timer. *)
Definition race_with_timeout {A} (p : Settlement A) (timeout : Z)
  : Outcome ErrorObj A :=
  match p with
  | Fulfilled ms a =>
      if (ms <=? timeout)%Z then Return a
      else Throw (Error_new "Session check timeout")
  | Rejected ms e =>
      if (ms <=? timeout)%Z then Throw e
      else Throw (Error_new "Session check timeout")
  | Pending => Throw (Error_new "Session check timeout")
  end.

Section Transport.

Context (imp : Imports) (this : Instance) (w : World).

Local Open Scope outcome_scope.
Local Open Scope method_scope.

(** *** Capability matching *)

Definition getCapabilityValue (caps : option ExistingCaps) (key : string)
  : JsVal :=
  match caps with
  | None => None
  | Some (CapabilitiesMap entries) => obj_get entries key
  | Some (PlainCaps o) => obj_get o key
  end.

(** [existingCaps.getBrowserName()] when it is a function, else the lookup. *)
Definition existingBrowserName (existingCaps : ExistingCaps) : JsVal :=
  match existingCaps with
  | CapabilitiesMap entries => obj_get entries "browserName"
  | PlainCaps _ => getCapabilityValue (Some existingCaps) "browserName"
  end.

(** The platform-name test; [true] when the names differ. *)
Definition platformMismatch (desiredCaps : Obj) (existingCaps : ExistingCaps)
  : Outcome ErrorObj bool :=
  let? desiredPlatform :=
    optional_toLowerCase (obj_get desiredCaps "platformName") in
  let? byPlatformName :=
    optional_toLowerCase
      (getCapabilityValue (Some existingCaps) "platformName") in
  let? existingPlatform :=
    (if present byPlatformName then Return byPlatformName
     else optional_toLowerCase
            (getCapabilityValue (Some existingCaps) "platform")) in
  Return (differs_str desiredPlatform existingPlatform).

(** The iOS tests on UDID and bundle id; [true] when one differs. *)
Definition iosMismatch (desiredCaps : Obj) (existingCaps : ExistingCaps)
  : bool :=
  let desiredUDID :=
    js_or (obj_get desiredCaps "appium:udid")
          (obj_get desiredCaps "safari:deviceUDID") in
  let existingUDID :=
    js_or (getCapabilityValue (Some existingCaps) "appium:udid")
          (getCapabilityValue (Some existingCaps) "safari:deviceUDID") in
  if differs desiredUDID existingUDID then true
  else
    let desiredBundleId :=
      js_or (obj_get desiredCaps "appium:bundleId")
            (obj_get desiredCaps "bundleId") in
    let existingBundleId :=
      js_or (getCapabilityValue (Some existingCaps) "appium:bundleId")
            (getCapabilityValue (Some existingCaps) "bundleId") in
    differs desiredBundleId existingBundleId.

(** The Android tests on UDID and app package; [true] when one differs. *)
Definition androidMismatch (desiredCaps : Obj) (existingCaps : ExistingCaps)
  : bool :=
  let desiredUDID :=
    js_or (obj_get desiredCaps "appium:udid")
          (obj_get desiredCaps "deviceId") in
  let existingUDID :=
    js_or (getCapabilityValue (Some existingCaps) "appium:udid")
          (getCapabilityValue (Some existingCaps) "deviceId") in
  if differs desiredUDID existingUDID then true
  else
    let desiredAppPackage :=
      js_or (obj_get desiredCaps "appium:appPackage")
            (obj_get desiredCaps "appPackage") in
    let existingAppPackage :=
      js_or (getCapabilityValue (Some existingCaps) "appium:appPackage")
            (getCapabilityValue (Some existingCaps) "appPackage") in
    differs desiredAppPackage existingAppPackage.

(** The browser-name test; [true] when the names differ. *)
Definition browserMismatch (desiredCaps : Obj) (existingCaps : ExistingCaps)
  : Outcome ErrorObj bool :=
  let desiredBrowser := obj_get desiredCaps "browserName" in
  let existingBrowser := existingBrowserName existingCaps in
  if truthy desiredBrowser && truthy existingBrowser then
    let? d := call_toLowerCase desiredBrowser in
    let? e := call_toLowerCase existingBrowser in
    Return (negb (String.eqb d e))
  else Return false.

Definition capabilitiesMatch (desiredCaps : Obj)
  (existingCaps : option ExistingCaps) : Outcome ErrorObj bool :=
  match existingCaps with
  | None => Return false
  | Some existing =>
      let? mobileMismatch :=
        (if isMobile imp desiredCaps then
           let? platformDiffers := platformMismatch desiredCaps existing in
           if platformDiffers then Return true
           else if isIos imp desiredCaps && iosMismatch desiredCaps existing
           then Return true
           else if isAndroid imp desiredCaps
                   && androidMismatch desiredCaps existing
           then Return true
           else Return false
         else Return false) in
      if mobileMismatch then Return false
      else
        let? browserDiffers := browserMismatch desiredCaps existing in
        if browserDiffers then Return false else Return true
  end.

(** *** Session cache and reuse *)

Definition closeDriver : M unit :=
  driverService <- gets this_driverService ;;
  match driverService with
  | Some s =>
      try_catch
        (call (EvServiceStop s) ;;
         await (service_stop w s) ;;
         modify (set_this_driverService None) ;;
         modify (set_this_stopped true))
        (fun err => throw (set_displayed err true))
  | None => ret tt
  end.

Definition sessionFinished (reason : string) : M unit :=
  call (EvEmit "session:finished") ;;
  modify (set_T_cachedSessionInfo None) ;;
  closeDriver.

Definition shouldReuseDriverService (reuseBrowser : bool) (st : State)
  : bool :=
  match _driverService st with
  | Some s => negb (service_stopped w s) && reuseBrowser
  | None => false
  end.

Definition createDriverService (options : Options)
  (moduleKey : option string) (reuseBrowser : bool) : M unit :=
  try_catch
    (let moduleKey :=
       match str_or (str_or (log_file_name (webdriver (settings this)))
                            moduleKey) (Some EmptyString) with
       | Some k => k
       | None => EmptyString
       end in
     reuse <- gets (shouldReuseDriverService reuseBrowser) ;;
     (if negb reuse then
        let s := ServiceBuilder_new w in
        let outputFile := if reuseBrowser then "test" else moduleKey in
        modify (set_T_driverService (Some s)) ;;
        call (EvServiceInit s outputFile options) ;;
        await (service_init w s outputFile options)
      else ret tt) ;;
     service <- gets _driverService ;;
     modify (set_this_driverService service))
    (fun err => throw err).

(** The timeout of the session check. *)
Definition sessionCheckTimeout : Z :=
  if isMobile imp (desiredCapabilities (settings this)) then 2000%Z
  else 1000%Z.

(** The inner [try] of [shouldReuseDriver]: fill the cache from the
    session, a failure being dropped. *)
Definition fillCache (session : Session) : M unit :=
  try_catch
    (call EvSessionGetId ;;
     sessionId <- await (getId session) ;;
     call EvSessionGetCapabilities ;;
     sessionCapabilities <- await (getCapabilities session) ;;
     serializedCaps <- await (serializeCapabilities w sessionCapabilities) ;;
     modify (set_T_cachedSessionInfo
               (Some {| sessionId := sessionId;
                        capabilities := serializedCaps |})))
    (fun _ => ret tt).

(** [Transport.driver = null; Transport.cachedSessionInfo = null] *)
Definition clearDriverAndCache : M unit :=
  modify (set_T_driver None) ;;
  modify (set_T_cachedSessionInfo None).

Definition shouldReuseDriver (reuseBrowser : bool) : M bool :=
  driver <- gets _driver ;;
  if negb reuseBrowser || negb (isSome driver) then ret false
  else
    cached <- gets _cachedSessionInfo ;;
    mismatch <-
      match cached with
      | Some info =>
          match capabilities info with
          | Some caps =>
              matches <- await (capabilitiesMatch
                                  (desiredCapabilities (settings this))
                                  (Some caps)) ;;
              ret (negb matches)
          | None => ret false
          end
      | None => ret false
      end ;;
    if mismatch then clearDriverAndCache ;; ret false
    else
      try_catch
        (let timeout := sessionCheckTimeout in
         driver <- gets _driver ;;
         session <-
           match driver with
           | Some d =>
               call (EvGetSession d timeout) ;;
               await (race_with_timeout (driver_getSession w d) timeout)
           | None => throw (TypeError_new "Cannot read properties of null")
           end ;;
         cached <- gets _cachedSessionInfo ;;
         (if negb (isSome cached) then fillCache session else ret tt) ;;
         ret true)
        (fun _ => clearDriverAndCache ;; ret false).

Definition createDriver (options : Options) : M Driver :=
  call (EvBuild options) ;;
  await (builder_build w options).

Definition getDriver (options : Options) (reuseBrowser : bool)
  : M (option Driver) :=
  value <- shouldReuseDriver reuseBrowser ;;
  if value then gets _driver
  else
    d <- createDriver options ;;
    modify (set_T_driver (Some d)) ;;
    gets _driver.

(** *** Connecting *)

Definition outputEnabled : bool := output (settings this).
Definition parallelMode : bool := testWorkersEnabled (settings this).

(** [showConnectInfo]: the printing is not modelled, the reads of
    [sessionInfo] that can fail are. *)
Definition showConnectInfo (sessionInfo : option SessionDisplayInfo)
  : M unit :=
  if outputEnabled then
    match sessionInfo with
    | None => throw (TypeError_new "Cannot destructure property of undefined")
    | Some info =>
        match appId info with
        | None => throw (TypeError_new "Cannot read properties of undefined")
        | Some _ =>
            match platform info with
            | None =>
                throw (TypeError_new "Cannot read properties of undefined")
            | Some _ => ret tt
            end
        end
    end
  else ret tt.

Definition handleConnectError (driverService : option Service)
  (err : ErrorObj) (host : string) (port : option N) : Thrown :=
  let errMsg :=
    "An error occurred while creating a new " ++ serviceName this
    ++ " session:" in
  let err :=
    if code_is err "ECONNREFUSED" then
      set_message (set_sessionCreate err true)
        (errMsg ++ " Connection refused to " ++ host ++ ":"
         ++ template_of_number port
         ++ ". If the Webdriver/Selenium service is managed by Nightwatch, check if "
         ++ dquote ++ "start_process" ++ dquote ++ " is set to "
         ++ dquote ++ "true" ++ dquote ++ ".")
    else
      set_message err
        (errMsg ++ " [" ++ name err ++ "] " ++ message err) in
  let marked := Plain (set_reportShown (set_showTrace err false) true) in
  match driverService with
  | Some service =>
      if negb (present (detailedErr err)) then
        let logPath := getOutputFilePath service in
        let err :=
          set_detailedErr err
            (" Verify if " ++ serviceName this
             ++ " is configured correctly; using:" ++ newline ++ "  "
             ++ getSettingsFormatted service ++ newline) in
        let err :=
          set_extraDetail err
            (match logPath with
             | Some path =>
                 if nonempty path then
                   newline
                   ++ "  More info might be available in the log file: "
                   ++ path
                 else
                   newline
                   ++ "  Set webdriver.log_path in your Nightwatch config to retrieve more logs from "
                   ++ serviceName this ++ "."
             | None =>
                 newline
                 ++ "  Set webdriver.log_path in your Nightwatch config to retrieve more logs from "
                 ++ serviceName this ++ "."
             end) in
        if includes (message err) "Failed to run adb command"
           || includes (message err) "no devices online"
        then AndroidConnectionError err
        else if IosSessionErrors imp (name err) && api_isSafari this
                && api_isIOS this
        then IosSessionNotCreatedError err
               (desiredCapabilities (settings this))
        else Plain (set_reportShown (set_showTrace err false) true)
      else marked
  | None => marked
  end.

(** The [try] block of [createSession]. *)
Definition connect (options : Options) (reuseBrowser : bool)
  : M SessionResult :=
  wasReused <- shouldReuseDriver reuseBrowser ;;
  (if wasReused then
     d <- gets _driver ;;
     modify (set_this_driver d)
   else
     d <- getDriver options reuseBrowser ;;
     modify (set_this_driver d)) ;;
  driver <- gets this_driver ;;
  call (EvSessionExported driver) ;;
  sessionExports <- await (session_exported w driver) ;;
  (match exp_sessionId sessionExports, exp_capabilities sessionExports with
   | Some sid, Some caps =>
       if nonempty sid then
         modify (set_T_cachedSessionInfo
                   (Some {| sessionId := sid; capabilities := Some caps |}))
       else ret tt
   | _, _ => ret tt
   end) ;;
  modify (set_this_elementKey (exp_elementKey sessionExports)) ;;
  showConnectInfo (exp_sessionInfo sessionExports) ;;
  ret {| res_sessionId := exp_sessionId sessionExports;
         res_capabilities := exp_capabilities sessionExports;
         res_host := host (webdriver (settings this));
         res_port := port (webdriver (settings this)) |}.

(** What precedes the [try] block of [createSession]. *)
Definition prepare (argv : Argv) (moduleKey : option string)
  (reuseBrowser : bool) : M Options :=
  call (EvCreateSessionOptions argv) ;;
  options <- await (createSessionOptions w argv) ;;
  (if start_process (webdriver (settings this)) then
     createDriverService options moduleKey reuseBrowser
   else ret tt) ;;
  ret options.

Definition createSession (argv : Argv) (moduleKey : option string)
  (reuseBrowser : bool) (st : State) : Outcome Thrown SessionResult * State :=
  match prepare argv moduleKey reuseBrowser st with
  | (Throw err, st1) => (Throw (Plain err), st1)
  | (Return options, st1) =>
      match connect options reuseBrowser st1 with
      | (Return result, st2) => (Return result, st2)
      | (Throw err, st2) =>
          (Throw (handleConnectError (this_driverService st2) err
                    (host (webdriver (settings this)))
                    (port (webdriver (settings this)))),
           st2)
      end
  end.

(** *** Error helpers *)

Definition getErrorResponse (result : Result) : option ErrorObj :=
  match result with
  | ErrorResult e => Some e
  | ResultObject error => error
  end.

Definition staleElementReference (result : option ErrorObj) : bool :=
  match result with
  | Some e => instanceof e StaleElementReferenceError
  | None => false
  end.

Definition elementClickInterceptedError (result : option ErrorObj) : bool :=
  match result with
  | Some e => instanceof e ElementClickInterceptedError
  | None => false
  end.

Definition invalidElementStateError (result : option ErrorObj) : bool :=
  match result with
  | Some e => instanceof e InvalidElementStateError
  | None => false
  end.

Definition elementNotInteractableError (result : option ErrorObj) : bool :=
  match result with
  | Some e => instanceof e ElementNotInteractableError
  | None => false
  end.

Definition isGenericWebDriverError (result : option ErrorObj) : bool :=
  match result with
  | Some e => instanceof e WebDriverError && String.eqb (name e) "WebDriverError"
  | None => false
  end.

Definition isRetryableElementError (result : Result) : bool :=
  let errorResponse := getErrorResponse result in
  match errorResponse with
  | Some e =>
      if isGenericWebDriverError errorResponse then
        let errors := getRetryableErrorMessages this in
        existsb (fun item => includes (message e) item) errors
      else
        staleElementReference errorResponse
        || elementClickInterceptedError errorResponse
        || invalidElementStateError errorResponse
        || elementNotInteractableError errorResponse
  | None => false
  end.

End Transport.

(** ** Definitions used to state the properties *)

(** The cached session info is there only while a driver handle is. *)
Definition cache_inv (st : State) : Prop :=
  isSome (_cachedSessionInfo st) = true -> isSome (_driver st) = true.

(** The states of the cache: the initial one, and those the three
    operations lead to, whatever the transport instance, the world and the
    arguments of each call, and whether the call returns or throws. *)
Inductive reachable : State -> Prop :=
| reach_initial : reachable initial_state
| reach_createSession imp this w argv moduleKey reuseBrowser st :
    reachable st ->
    reachable (snd (createSession imp this w argv moduleKey reuseBrowser st))
| reach_shouldReuseDriver imp this w reuseBrowser st :
    reachable st ->
    reachable (snd (shouldReuseDriver imp this w reuseBrowser st))
| reach_sessionFinished w reason st :
    reachable st ->
    reachable (snd (sessionFinished w reason st)).

(** Both cache slots set to empty. *)
Definition cleared (st : State) : State :=
  set_T_cachedSessionInfo None (set_T_driver None st).

(** The error object that [handleConnectError] decorated: the one it
    returns, or the one it hands to the constructor of a dedicated error. *)
Definition decorated (t : Thrown) : ErrorObj :=
  match t with
  | Plain e => e
  | AndroidConnectionError e => e
  | IosSessionNotCreatedError e _ => e
  end.





(** Modelled from the spec: [isIos], [isAndroid] and [isMobile] of
    [lib/utils/mobile.js] are missing from the source files.  The platform
    classification, web, iOS or Android, is inferred from the platform name
    of the desired capabilities, read case-insensitively; the mobile
    platforms are iOS and Android. *)
Definition platformName_is (p : string) (desiredCaps : Obj) : bool :=
  match obj_get desiredCaps "platformName" with
  | Some (VStr s) => String.eqb (toLowerCase s) p
  | _ => false
  end.

(** Modelled from the spec: the table [IosSessionErrors] of
    [lib/transport/errors] is missing from the source files; the spec has a
    known-error-name set for the session-not-created errors of iOS. *)
Definition spec_imports : Imports :=
  {| isIos := platformName_is "ios";
     isAndroid := platformName_is "android";
     isMobile := fun d => platformName_is "ios" d || platformName_is "android" d;
     IosSessionErrors := fun n => String.eqb n "SessionNotCreatedError" |}.

(** *** The matcher in the words of the spec *)

Definition lookup_existing (existing : ExistingCaps) (key : string) : JsVal :=
  match existing with
  | CapabilitiesMap entries => obj_get entries key
  | PlainCaps o => obj_get o key
  end.

Definition as_string (v : JsVal) : option string :=
  match v with
  | Some (VStr s) => Some s
  | _ => None
  end.

(** A capability that is absent or a string. *)
Definition string_or_absent (v : JsVal) : bool :=
  match v with
  | None => true
  | Some (VStr _) => true
  | Some _ => false
  end.

(** The platform and browser names are strings where they are given. *)
Definition names_are_strings (desired : Obj) (existing : ExistingCaps) : bool :=
  string_or_absent (obj_get desired "platformName")
  && string_or_absent (obj_get desired "browserName")
  && string_or_absent (lookup_existing existing "platformName")
  && string_or_absent (lookup_existing existing "platform")
  && string_or_absent (lookup_existing existing "browserName").

(** Absent on at least one side, or equal. *)
Definition absent_or_equal (a b : JsVal) : bool :=
  negb (truthy a) || negb (truthy b) || strict_eq a b.

(** Absent on at least one side, or equal without regard to case. *)
Definition absent_or_equal_ci (a b : option string) : bool :=
  match a, b with
  | Some x, Some y =>
      negb (nonempty x) || negb (nonempty y)
      || String.eqb (toLowerCase x) (toLowerCase y)
  | _, _ => true
  end.

(** The fields the matcher compares, each side resolved to one value. *)
Definition desired_platform (d : Obj) : option string :=
  as_string (obj_get d "platformName").
Definition existing_platform (e : ExistingCaps) : option string :=
  str_or (as_string (lookup_existing e "platformName"))
         (as_string (lookup_existing e "platform")).
Definition desired_field (d : Obj) (key alt : string) : JsVal :=
  js_or (obj_get d key) (obj_get d alt).
Definition existing_field (e : ExistingCaps) (key alt : string) : JsVal :=
  js_or (lookup_existing e key) (lookup_existing e alt).
Definition desired_browser (d : Obj) : option string :=
  as_string (obj_get d "browserName").
Definition existing_browser (e : ExistingCaps) : option string :=
  as_string (lookup_existing e "browserName").

Definition platform_ok (d : Obj) (e : ExistingCaps) : bool :=
  absent_or_equal_ci (desired_platform d) (existing_platform e).
Definition ios_device_ok (d : Obj) (e : ExistingCaps) : bool :=
  absent_or_equal (desired_field d "appium:udid" "safari:deviceUDID")
                  (existing_field e "appium:udid" "safari:deviceUDID").
Definition ios_bundle_ok (d : Obj) (e : ExistingCaps) : bool :=
  absent_or_equal (desired_field d "appium:bundleId" "bundleId")
                  (existing_field e "appium:bundleId" "bundleId").
Definition android_device_ok (d : Obj) (e : ExistingCaps) : bool :=
  absent_or_equal (desired_field d "appium:udid" "deviceId")
                  (existing_field e "appium:udid" "deviceId").
Definition android_package_ok (d : Obj) (e : ExistingCaps) : bool :=
  absent_or_equal (desired_field d "appium:appPackage" "appPackage")
                  (existing_field e "appium:appPackage" "appPackage").
Definition browser_ok (d : Obj) (e : ExistingCaps) : bool :=
  absent_or_equal_ci (desired_browser d) (existing_browser e).

(** Every field is absent on a side or equal, whatever the platform. *)
Definition all_fields_ok (d : Obj) (e : ExistingCaps) : bool :=
  platform_ok d e && ios_device_ok d e && ios_bundle_ok d e
  && android_device_ok d e && android_package_ok d e && browser_ok d e.

(** The fields the code looks at for the platform of the desired
    capabilities: the platform name when they are mobile, the iOS fields
    when they are iOS, the Android fields when they are Android, and the
    browser name always. *)
Definition compared_fields_ok (imp : Imports) (d : Obj) (e : ExistingCaps)
  : bool :=
  (negb (isMobile imp d)
   || (platform_ok d e
       && (negb (isIos imp d) || (ios_device_ok d e && ios_bundle_ok d e))
       && (negb (isAndroid imp d)
           || (android_device_ok d e && android_package_ok d e))))
  && browser_ok d e.

(** *** The timeout and the knobs *)

(** The timeout of the session check is the value of one of the timeout
    knobs of the settings. *)
Definition timeout_is_a_knob (imp : Imports) (this : Instance) : Prop :=
  exists knob,
    In (knob, sessionCheckTimeout imp this)
       (timeout_knobs (settings this)).

(** The same settings with other timeout knobs. *)
Definition with_timeout_knobs (this : Instance) (knobs : list (string * Z))
  : Instance :=
  {| settings :=
       {| desiredCapabilities := desiredCapabilities (settings this);
          webdriver := webdriver (settings this);
          selenium_start_process := selenium_start_process (settings this);
          output := output (settings this);
          testWorkersEnabled := testWorkersEnabled (settings this);
          timeout_knobs := knobs |};
     serviceName := serviceName this;
     api_isSafari := api_isSafari this;
     api_isIOS := api_isIOS this;
     getRetryableErrorMessages := getRetryableErrorMessages this |}.

(** *** Calls to the remote end *)

Definition is_remote_call (ev : Event) : bool :=
  match ev with
  | EvGetSession _ _ | EvBuild _ | EvSessionExported _ => true
  | _ => false
  end.

Definition is_build (ev : Event) : bool :=
  match ev with
  | EvBuild _ => true
  | _ => false
  end.

(** *** The four element-state error kinds *)

Definition element_state_kind (c : ErrorClass) : bool :=
  match c with
  | StaleElementReferenceError
  | ElementClickInterceptedError
  | InvalidElementStateError
  | ElementNotInteractableError => true
  | _ => false
  end.

(** No character of [s] is [c]. *)
Fixpoint lacks_char (c : ascii) (s : string) : bool :=
  match s with
  | EmptyString => true
  | String a r => negb (Ascii.eqb a c) && lacks_char c r
  end.

(** [showConnectInfo] can print the session info: the output is off, or
    the info has the application id and the platform it reads. *)
Definition displayable (this : Instance) (info : option SessionDisplayInfo)
  : bool :=
  negb (output (settings this))
  || match info with
     | Some i => isSome (appId i) && isSome (platform i)
     | None => false
     end.

(** ** Sample inputs *)

Definition chrome_caps : Obj := [("browserName", VStr "chrome")].

Definition sample_settings (desired : Obj) (knobs : list (string * Z))
  : Settings :=
  {| desiredCapabilities := desired;
     webdriver := {| host := "localhost"; port := Some 4444%N;
                     start_process := false; debug_timing := false;
                     log_file_name := None |};
     selenium_start_process := false;
     output := false;
     testWorkersEnabled := false;
     timeout_knobs := knobs |}.

Definition sample_transport (desired : Obj) (knobs : list (string * Z))
  : Instance :=
  {| settings := sample_settings desired knobs;
     serviceName := "ChromeDriver";
     api_isSafari := false;
     api_isIOS := false;
     getRetryableErrorMessages :=
       ["Unable to locate element"; "no such element"] |}.

Definition chrome_transport : Instance := sample_transport chrome_caps [].

Definition sample_service : Service :=
  {| service_id := 1; getOutputFilePath := None;
     getSettingsFormatted := "{ port: 4444 }" |}.

Definition error_of (c : ErrorClass) (n msg : string) (co : option string)
  : ErrorObj :=
  mkError c n msg co None None None None None None.

Definition stale_error : ErrorObj :=
  error_of StaleElementReferenceError "StaleElementReferenceError"
           "stale element reference" None.

Definition transient_error : ErrorObj :=
  error_of WebDriverError "WebDriverError"
           "Unable to locate element: #main" None.

Definition window_error : ErrorObj :=
  error_of NoSuchWindowError "NoSuchWindowError" "no such window" None.

Definition refused_error : ErrorObj :=
  error_of JsError "Error" "connect ECONNREFUSED 127.0.0.1:4444"
           (Some "ECONNREFUSED").

(** A timeout error whose own message quotes the configuration key. *)
Definition quoting_error : ErrorObj :=
  error_of JsError "Error" "start_process is not enabled" (Some "ETIMEDOUT").

Definition adb_error : ErrorObj :=
  error_of JsError "Error" "no devices online" None.

Definition windows_chrome : Obj :=
  [("platformName", VStr "windows"); ("browserName", VStr "chrome")].

Definition linux_chrome_session : ExistingCaps :=
  PlainCaps [("platformName", VStr "linux"); ("browserName", VStr "chrome")].

Definition ios_safari : Obj :=
  [("platformName", VStr "iOS"); ("browserName", VStr "Safari");
   ("appium:udid", VStr "00008030-A")].

Definition ios_safari_session : ExistingCaps :=
  CapabilitiesMap
    [("platformName", VStr "ios"); ("browserName", VStr "safari");
     ("appium:udid", VStr "00008030-A")].

Definition ios_other_device_session : ExistingCaps :=
  CapabilitiesMap
    [("platformName", VStr "ios"); ("browserName", VStr "safari");
     ("safari:deviceUDID", VStr "00008030-B")].

Definition sample_session : Session :=
  {| getId := Return "b0a1";
     getCapabilities := Return ios_safari_session |}.

Definition sample_exports : SessionExports :=
  {| exp_sessionInfo := None;
     exp_sessionId := Some "b0a1";
     exp_capabilities := Some ios_safari_session;
     exp_elementKey := Some "element-6066-11e4-a52e-4f735466cecf" |}.

(** A world where every collaborator answers, the driver within 50 ms. *)
Definition healthy_world : World :=
  {| createSessionOptions := fun _ => Return 0;
     ServiceBuilder_new := sample_service;
     service_init := fun _ _ _ => Return tt;
     service_stop := fun _ => Return tt;
     service_stopped := fun _ => false;
     builder_build := fun _ => Return 9;
     driver_getSession := fun _ => Fulfilled 50%Z sample_session;
     serializeCapabilities := fun c => Return (Some c);
     session_exported := fun _ => Return sample_exports |}.

Definition ios_transport : Instance := sample_transport ios_safari [].

(** Desktop settings with timeout knobs set. *)
Definition knobbed_transport : Instance :=
  sample_transport chrome_caps
    [("desktop_session_check_timeout", 5000%Z);
     ("mobile_session_check_timeout", 9000%Z)].

(** A cache holding driver 7 and the session info of [caps]. *)
Definition cached_state (caps : ExistingCaps) : State :=
  mkState None (Some 7) (Some {| sessionId := "b0a1"; capabilities := Some caps |})
          (Some 7) None false None [].

(** ** Further definitions *)

(** The keys under which the matcher reads device and application
    identifiers. *)
Definition identifier_keys : list string :=
  ["appium:udid"; "safari:deviceUDID"; "appium:bundleId"; "bundleId";
   "deviceId"; "appium:appPackage"; "appPackage"].

(** A value that is not a nested map. *)
Definition scalar (v : JsVal) : bool :=
  match v with
  | Some (VObj _) => false
  | _ => true
  end.

(** No identifier of the capabilities is a nested map. *)
Definition identifiers_scalar (d : Obj) : bool :=
  forallb (fun k => scalar (obj_get d k)) identifier_keys.

(** Desired capabilities with an options bag. *)
Definition bagged_caps : Obj :=
  [("platformName", VStr "iOS");
   ("appium:udid", VStr "old");
   ("appium:options",
    VObj [("udid", VStr "00008030-A");
          ("appium:bundleId", VStr "com.example.app")])].

(** An iOS session that reports a boolean as its platform name. *)
Definition odd_platform_session : ExistingCaps :=
  PlainCaps [("platformName", VBool true)].

(** A cache holding driver 7 and no session info. *)
Definition uncached_state : State :=
  mkState None (Some 7) None (Some 7) None false None [].

(** A world whose driver never answers the session check. *)
Definition silent_world : World :=
  {| createSessionOptions := fun _ => Return 0;
     ServiceBuilder_new := sample_service;
     service_init := fun _ _ _ => Return tt;
     service_stop := fun _ => Return tt;
     service_stopped := fun _ => false;
     builder_build := fun _ => Return 9;
     driver_getSession := fun _ => Pending;
     serializeCapabilities := fun c => Return (Some c);
     session_exported := fun _ => Return sample_exports |}.

(** A world whose sessions cannot be serialized. *)
Definition unserializable_world : World :=
  {| createSessionOptions := fun _ => Return 0;
     ServiceBuilder_new := sample_service;
     service_init := fun _ _ _ => Return tt;
     service_stop := fun _ => Return tt;
     service_stopped := fun _ => false;
     builder_build := fun _ => Return 9;
     driver_getSession := fun _ => Fulfilled 50%Z sample_session;
     serializeCapabilities := fun _ => Throw (Error_new "cannot serialize");
     session_exported := fun _ => Return sample_exports |}.

Definition is_probe (ev : Event) : bool :=
  match ev with
  | EvGetSession _ _ => true
  | _ => false
  end.

Definition is_export (ev : Event) : bool :=
  match ev with
  | EvSessionExported _ => true
  | _ => false
  end.

(** How many events of a kind a trace has. *)
Definition count_events (kind : Event -> bool) (evs : list Event) : nat :=
  length (filter kind evs).

(** A world whose remote end refuses connections and whose cached driver
    never answers. *)
Definition refusing_world : World :=
  {| createSessionOptions := fun _ => Return 0;
     ServiceBuilder_new := sample_service;
     service_init := fun _ _ _ => Return tt;
     service_stop := fun _ => Return tt;
     service_stopped := fun _ => false;
     builder_build := fun _ => Throw refused_error;
     driver_getSession := fun _ => Pending;
     serializeCapabilities := fun c => Return (Some c);
     session_exported := fun _ => Return sample_exports |}.

(** A world whose driver service does not start and cannot be stopped. *)
Definition broken_service_world : World :=
  {| createSessionOptions := fun _ => Return 0;
     ServiceBuilder_new := sample_service;
     service_init := fun _ _ _ => Throw (Error_new "spawn ENOENT");
     service_stop := fun _ => Throw (Error_new "kill EPERM");
     service_stopped := fun _ => false;
     builder_build := fun _ => Return 9;
     driver_getSession := fun _ => Fulfilled 50%Z sample_session;
     serializeCapabilities := fun c => Return (Some c);
     session_exported := fun _ => Return sample_exports |}.

(** A world without options for the session. *)
Definition optionless_world : World :=
  {| createSessionOptions := fun _ => Throw (Error_new "unknown browser");
     ServiceBuilder_new := sample_service;
     service_init := fun _ _ _ => Return tt;
     service_stop := fun _ => Return tt;
     service_stopped := fun _ => false;
     builder_build := fun _ => Return 9;
     driver_getSession := fun _ => Fulfilled 50%Z sample_session;
     serializeCapabilities := fun c => Return (Some c);
     session_exported := fun _ => Return sample_exports |}.

(** A transport that manages its driver service. *)
Definition managed_transport : Instance :=
  {| settings :=
       {| desiredCapabilities := chrome_caps;
          webdriver := {| host := "localhost"; port := Some 9515%N;
                          start_process := true; debug_timing := false;
                          log_file_name := None |};
          selenium_start_process := false;
          output := false;
          testWorkersEnabled := false;
          timeout_knobs := [] |};
     serviceName := "ChromeDriver";
     api_isSafari := false;
     api_isIOS := false;
     getRetryableErrorMessages := [] |}.

(** The prefix of the message of a classified connect error. *)
Definition connect_error_prefix (this : Instance) : string :=
  "An error occurred while creating a new " ++ serviceName this
  ++ " session:".

(** The message [handleConnectError] writes onto an error. *)
Definition connect_message (this : Instance) (err : ErrorObj) (h : string)
  (p : option N) : string :=
  if code_is err "ECONNREFUSED" then
    connect_error_prefix this ++ " Connection refused to " ++ h ++ ":"
    ++ template_of_number p
    ++ ". If the Webdriver/Selenium service is managed by Nightwatch, check if "
    ++ dquote ++ "start_process" ++ dquote ++ " is set to "
    ++ dquote ++ "true" ++ dquote ++ "."
  else
    connect_error_prefix this ++ " [" ++ name err ++ "] " ++ message err.

(** A message that reports a failure of the Android device bridge. *)
Definition android_pattern (msg : string) : bool :=
  includes msg "Failed to run adb command"
  || includes msg "no devices online".

(** A state whose instance holds a running driver service. *)
Definition serviced_state : State :=
  mkState (Some sample_service) (Some 7)
          (Some {| sessionId := "b0a1";
                   capabilities := Some ios_safari_session |})
          (Some 7) (Some sample_service) false None [].

(** A driver service that writes a log file. *)
Definition logging_service : Service :=
  {| service_id := 2; getOutputFilePath := Some "logs/chromedriver.log";
     getSettingsFormatted := "{ port: 9515 }" |}.

(** A refused connection whose original message names the device bridge. *)
Definition refused_adb_error : ErrorObj :=
  error_of JsError "Error" "no devices online" (Some "ECONNREFUSED").

(** ** Element references and results *)

(** The values of a protocol result: the values of JSON and [undefined]. *)
Inductive JsValue : Type :=
| JUndefined
| JNull
| JBool (b : bool)
| JNum (n : Z)
| JStr (s : string)
| JArr (items : list JsValue)
| JObj (props : list (string * JsValue)).

(** The array index a property key stands for, if it is the decimal
    numeral of one. *)
Definition array_index (key : string) : option nat :=
  match NilEmpty.uint_of_string key with
  | Some u =>
      let n := Nat.of_uint u in
      if String.eqb (NilEmpty.string_of_uint (Nat.to_uint n)) key
      then Some n
      else None
  | None => None
  end.

Fixpoint props_get (props : list (string * JsValue)) (key : string)
  : JsValue :=
  match props with
  | [] => JUndefined
  | (k, v) :: r => if String.eqb k key then v else props_get r key
  end.

(** [v[key]], on the own properties of [v]: reading a property of [null]
    or [undefined] throws. *)
Definition js_get (v : JsValue) (key : string) : Outcome ErrorObj JsValue :=
  match v with
  | JUndefined | JNull =>
      Throw (TypeError_new "Cannot read properties of undefined")
  | JBool _ | JNum _ => Return JUndefined
  | JStr s =>
      if String.eqb key "length" then Return (JNum (Z.of_nat (String.length s)))
      else
        match array_index key with
        | Some i =>
            match String.get i s with
            | Some c => Return (JStr (String c EmptyString))
            | None => Return JUndefined
            end
        | None => Return JUndefined
        end
  | JArr items =>
      if String.eqb key "length" then Return (JNum (Z.of_nat (List.length items)))
      else
        match array_index key with
        | Some i => Return (nth i items JUndefined)
        | None => Return JUndefined
        end
  | JObj props => Return (props_get props key)
  end.

Section Elements.

(** [Session.WEB_ELEMENT_ID], a constant of [session.js], which is missing
    from the source files. *)
Context (WEB_ELEMENT_ID : string).
Context (st : State).

Local Open Scope outcome_scope.

(** [this.__elementKey || Session.WEB_ELEMENT_ID] *)
Definition elementKey : string :=
  match this_elementKey st with
  | Some k => if nonempty k then k else WEB_ELEMENT_ID
  | None => WEB_ELEMENT_ID
  end.

Definition getElementId (resultValue : JsValue) : Outcome ErrorObj JsValue :=
  js_get resultValue elementKey.

Definition toElement (resultValue : JsValue) : JsValue :=
  JObj [(elementKey, resultValue)].

Definition mapWebElementIds (value : JsValue) : Outcome ErrorObj JsValue :=
  match value with
  | JArr items =>
      let? ids :=
        fold_left
          (fun prev item =>
             let? prev := prev in
             let? id := getElementId item in
             Return (prev ++ [id])%list)
          items (Return []) in
      Return (JArr ids)
  | _ => Return value
  end.

End Elements.

(** What the [error] property of a result holds: an [Error], or any other
    value, [undefined] when the result has no such property. *)
Inductive ErrorProperty : Type :=
| IsError (e : ErrorObj)
| NotError (v : JsValue).

(** A result, other than [null], as the result helpers look at it: an
    [Error], or an object with its [error] property and the number its
    [status] property holds, when it holds one. *)
Inductive Response : Type :=
| ResponseError (e : ErrorObj)
| ResponseObject (error : ErrorProperty) (status : option Z).

(** The same result, as the [instanceof] tests of the error helpers see
    it. *)
Definition as_result (r : Response) : Result :=
  match r with
  | ResponseError e => ErrorResult e
  | ResponseObject (IsError e) _ => ResultObject (Some e)
  | ResponseObject (NotError _) _ => ResultObject None
  end.

(** [getErrorResponse(result)], with the value it returns when that is not
    an [Error]. *)
Definition getErrorResponse_value (r : Response) : ErrorProperty :=
  match r with
  | ResponseError e => IsError e
  | ResponseObject error _ => error
  end.

(** [isResultSuccess(result = {})] *)
Definition isResultSuccess (result : option Response) : bool :=
  let result :=
    match result with
    | Some r => r
    | None => ResponseObject (NotError JUndefined) None
    end in
  negb (match result with
        | ResponseError _ => true
        | ResponseObject error status =>
            match error with
            | IsError _ => true
            | NotError _ => false
            end
            || match status with
               | Some n => (n =? -1)%Z
               | None => false
               end
        end).

(** The element key of the W3C protocol. *)
Definition w3c_element_key : string := "element-6066-11e4-a52e-4f735466cecf".

(** * Properties *)

(** ** Strings *)

Lemma append_assoc (a b c : string) : (a ++ b) ++ c = a ++ b ++ c.
Proof.
  induction a as [|x a IH]; simpl; [reflexivity|]. now rewrite IH.
Qed.

Lemma prefix_append (p s : string) : String.prefix p (p ++ s) = true.
Proof.
  induction p as [|a p IH]; simpl.
  - now destruct s.
  - destruct (ascii_dec a a) as [_|N]; [exact IH|now elim N].
Qed.

Lemma includes_unfold (s p : string) :
  includes s p
  = String.prefix p s
    || match s with
       | EmptyString => false
       | String _ r => includes r p
       end.
Proof. now destruct s. Qed.

Lemma includes_here (p s : string) : includes (p ++ s) p = true.
Proof. now rewrite includes_unfold, prefix_append. Qed.

Lemma includes_skip (a s p : string) :
  includes s p = true -> includes (a ++ s) p = true.
Proof.
  intros H. induction a as [|x a IH]; simpl; [exact H|].
  rewrite IH. apply orb_true_r.
Qed.

Lemma prefix_stops_at (c : ascii) (p x y : string) :
  lacks_char c p = true ->
  String.prefix p (x ++ String c y) = true -> String.prefix p x = true.
Proof.
  revert x. induction p as [|a p IH]; intros x Hc Hp.
  - now destruct x.
  - simpl in Hc. apply andb_true_iff in Hc as [Hac Hc].
    destruct x as [|b x]; simpl in *.
    + destruct (ascii_dec a c) as [->|_]; [|discriminate].
      now rewrite Ascii.eqb_refl in Hac.
    + destruct (ascii_dec a b); [|discriminate]. now apply IH.
Qed.

Lemma includes_of_prefix (p s : string) :
  String.prefix p s = true -> includes s p = true.
Proof. intros H. now rewrite includes_unfold, H. Qed.

(** A phrase without the character [c] found in [x ++ c ++ y] lies in [x]
    or in [y]. *)
Lemma includes_split (c : ascii) (p x y : string) :
  lacks_char c p = true ->
  includes (x ++ String c y) p = true ->
  includes x p = true \/ includes y p = true.
Proof.
  intros Hc. induction x as [|b x IH]; intros H.
  - change (EmptyString ++ String c y) with (String c y) in H.
    simpl in H. apply orb_true_iff in H as [H|H]; [|now right].
    left. apply includes_of_prefix.
    apply (prefix_stops_at c p EmptyString y Hc H).
  - change (String b x ++ String c y) with (String b (x ++ String c y)) in H.
    cbn [includes] in H. apply orb_true_iff in H as [H|H].
    + left. apply includes_of_prefix.
      apply (prefix_stops_at c p (String b x) y Hc H).
    + destruct (IH H) as [Hx|Hy]; [left|now right].
      cbn [includes]. rewrite Hx. apply orb_true_r.
Qed.

Lemma nonempty_toLowerCase (s : string) :
  nonempty (toLowerCase s) = nonempty s.
Proof. now destruct s. Qed.

(** ** Plain objects *)

Lemma obj_get_delete_same (o : Obj) (k : string) :
  obj_get (obj_delete o k) k = None.
Proof.
  induction o as [|[k' v] r IH]; simpl; [reflexivity|].
  destruct (String.eqb k' k) eqn:E; simpl; [exact IH|].
  rewrite E. exact IH.
Qed.

(** ** Flattening of the options bag *)

Lemma extract_without_bag (d : Obj) :
  isObject (obj_get d Appium.options_key) = false ->
  Appium.extractAppiumOptions d = d.
Proof.
  unfold Appium.extractAppiumOptions, isObject.
  destruct (obj_get d Appium.options_key) as [[s|b|o]|]; intros H;
    try reflexivity; discriminate.
Qed.

Lemma extract_removes_bag (d : Obj) :
  isObject (obj_get d Appium.options_key) = true ->
  obj_get (Appium.extractAppiumOptions d) Appium.options_key = None.
Proof.
  unfold Appium.extractAppiumOptions, isObject.
  destruct (obj_get d Appium.options_key) as [[s|b|o]|]; intros H;
    try discriminate.
  apply obj_get_delete_same.
Qed.

(** C8: flattening the vendor options bag is idempotent: flattening twice
    gives the same capability map as flattening once, so flattening a map
    that is already flattened changes nothing. *)
Theorem extractAppiumOptions_idempotent (d : Obj) :
  Appium.extractAppiumOptions (Appium.extractAppiumOptions d)
  = Appium.extractAppiumOptions d.
Proof.
  destruct (isObject (obj_get d Appium.options_key)) eqn:E.
  - apply extract_without_bag.
    now rewrite (extract_removes_bag d E).
  - now rewrite !(extract_without_bag d E).
Qed.

(** ** Retryable element errors *)

(** C7: for a result whose underlying error is [e], [isRetryableElementError]
    is true when [e] is of one of the four element-state kinds (named as its
    class names it), true when [e] is a generic [WebDriverError] whose message
    contains one of the configured transient substrings, and false when [e]
    is of none of the four kinds and its message contains none of the
    substrings. *)
Theorem isRetryableElementError_spec (this : Instance) (result : Result)
  (e : ErrorObj) :
  getErrorResponse result = Some e ->
  (element_state_kind (cls e) = true -> name e = className (cls e) ->
   isRetryableElementError this result = true)
  /\ (instanceof e WebDriverError = true -> name e = "WebDriverError" ->
      (exists item, In item (getRetryableErrorMessages this)
                    /\ includes (message e) item = true) ->
      isRetryableElementError this result = true)
  /\ (element_state_kind (cls e) = false ->
      (forall item, In item (getRetryableErrorMessages this) ->
                    includes (message e) item = false) ->
      isRetryableElementError this result = false).
Proof.
  intros He. unfold isRetryableElementError. rewrite He.
  unfold isGenericWebDriverError, staleElementReference,
    elementClickInterceptedError, invalidElementStateError,
    elementNotInteractableError, instanceof.
  repeat split.
  - intros Hk Hn. rewrite Hn.
    destruct (cls e); simpl in *; try discriminate; reflexivity.
  - intros Hw Hn Hex. rewrite Hw, Hn. simpl.
    apply existsb_exists. exact Hex.
  - intros Hk Hnone.
    destruct (extends (cls e) WebDriverError && (name e =? "WebDriverError")).
    + destruct (existsb _ _) eqn:Ex; [|reflexivity].
      apply existsb_exists in Ex as [item [Hin Hinc]].
      rewrite (Hnone item Hin) in Hinc. discriminate.
    + destruct (cls e); simpl in *; try discriminate; reflexivity.
Qed.

Lemma isRetryableElementError_spec_witness :
  isRetryableElementError chrome_transport (ErrorResult stale_error) = true
  /\ isRetryableElementError chrome_transport
       (ResultObject (Some transient_error)) = true
  /\ isRetryableElementError chrome_transport (ErrorResult window_error)
     = false.
Proof.
  split; [|split].
  - apply (proj1 (isRetryableElementError_spec chrome_transport
                    (ErrorResult stale_error) stale_error eq_refl));
      reflexivity.
  - apply (proj1 (proj2 (isRetryableElementError_spec chrome_transport
                           (ResultObject (Some transient_error))
                           transient_error eq_refl)));
      [reflexivity|reflexivity|].
    exists "Unable to locate element". split; [now left|reflexivity].
  - apply (proj2 (proj2 (isRetryableElementError_spec chrome_transport
                           (ErrorResult window_error) window_error eq_refl)));
      [reflexivity|].
    intros item [<-|[<-|[]]]; reflexivity.
Defined.

(** ** Connect errors *)

Lemma decorated_message (imp : Imports) (this : Instance)
  (ds : option Service) (err : ErrorObj) (h : string) (p : option N) :
  message (decorated (handleConnectError imp this ds err h p))
  = if code_is err "ECONNREFUSED" then
      ("An error occurred while creating a new " ++ serviceName this
       ++ " session:") ++ " Connection refused to " ++ h ++ ":"
      ++ template_of_number p
      ++ ". If the Webdriver/Selenium service is managed by Nightwatch, check if "
      ++ dquote ++ "start_process" ++ dquote ++ " is set to "
      ++ dquote ++ "true" ++ dquote ++ "."
    else
      ("An error occurred while creating a new " ++ serviceName this
       ++ " session:") ++ " [" ++ name err ++ "] " ++ message err.
Proof.
  unfold handleConnectError.
  destruct (code_is err "ECONNREFUSED"); destruct ds as [svc|]; cbn -[append includes];
    try reflexivity;
    destruct (present (detailedErr err)); cbn -[append includes]; try reflexivity;
    repeat match goal with
           | |- context [if ?c then _ else _] => destruct c
           end; reflexivity.
Qed.




Lemma serviceName_prefix_split (svc rest phrase : string) :
  lacks_char " " phrase = true ->
  includes "An error occurred while creating a new" phrase = false ->
  includes "session:" phrase = false ->
  includes (("An error occurred while creating a new " ++ svc ++ " session:")
            ++ " " ++ rest) phrase = true ->
  includes svc phrase = true \/ includes rest phrase = true.
Proof.
  intros Hsp H1 H2 H.
  replace (("An error occurred while creating a new " ++ svc ++ " session:")
           ++ " " ++ rest)
    with ("An error occurred while creating a new"
          ++ String " " (svc ++ String " " ("session:" ++ String " " rest)))
    in H by (cbn [append]; now rewrite append_assoc).
  apply (includes_split " " phrase) in H; [|exact Hsp].
  destruct H as [H|H]; [congruence|].
  apply (includes_split " " phrase) in H; [|exact Hsp].
  destruct H as [H|H]; [now left|].
  apply (includes_split " " phrase) in H; [|exact Hsp].
  destruct H as [H|H]; [congruence|now right].
Qed.

(** C9, amended: on the connection-refused code the message that
    [handleConnectError] writes contains [host:port] and names the
    [start_process] setting; on any other code the message is the generic
    prefix, the name of the error in brackets and the original message, so
    that it names [start_process] only when the service name, the error name
    or the original message already does. *)
Theorem handleConnectError_message (imp : Imports) (this : Instance)
  (ds : option Service) (err : ErrorObj) (h : string) (p : option N) :
  let produced := message (decorated (handleConnectError imp this ds err h p)) in
  (code_is err "ECONNREFUSED" = true ->
   includes produced (h ++ ":" ++ template_of_number p) = true
   /\ includes produced "start_process" = true)
  /\ (code_is err "ECONNREFUSED" = false ->
      produced
      = "An error occurred while creating a new " ++ serviceName this
        ++ " session: [" ++ name err ++ "] " ++ message err
      /\ (includes produced "start_process" = true ->
          includes (serviceName this) "start_process" = true
          \/ includes (name err) "start_process" = true
          \/ includes (message err) "start_process" = true)).
Proof.
  cbv zeta. rewrite decorated_message. split; intros Hc; rewrite Hc.
  - split.
    + replace (h ++ ":" ++ template_of_number p ++ _)
        with ((h ++ ":" ++ template_of_number p) ++
              ". If the Webdriver/Selenium service is managed by Nightwatch, check if "
              ++ dquote ++ "start_process" ++ dquote ++ " is set to "
              ++ dquote ++ "true" ++ dquote ++ ".")
        by (now rewrite !append_assoc).
      apply includes_skip, includes_skip, includes_here.
    + do 7 apply includes_skip.
      apply includes_here.
  - split.
    + now rewrite !append_assoc.
    + intros H.
      change (" [" ++ name err ++ "] " ++ message err)
        with (" " ++ "[" ++ name err ++ "] " ++ message err) in H.
      apply serviceName_prefix_split in H; try reflexivity.
      destruct H as [H|H]; [now left|right].
      change ("[" ++ name err ++ "] " ++ message err)
        with (EmptyString ++ String "[" (name err ++ "] " ++ message err)) in H.
      apply (includes_split "[" "start_process") in H; [|reflexivity].
      destruct H as [H|H]; [discriminate H|].
      change (name err ++ "] " ++ message err)
        with (name err ++ String "]" (" " ++ message err)) in H.
      apply (includes_split "]" "start_process") in H; [|reflexivity].
      destruct H as [H|H]; [now left|right].
      change (" " ++ message err)
        with (EmptyString ++ String " " (message err)) in H.
      apply (includes_split " " "start_process") in H; [|reflexivity].
      destruct H as [H|H]; [discriminate H|exact H].
Qed.

Lemma handleConnectError_message_witness :
  (includes
     (message (decorated (handleConnectError spec_imports chrome_transport
                            None refused_error "localhost" (Some 4444%N))))
     "localhost:4444" = true
   /\ includes
        (message (decorated (handleConnectError spec_imports chrome_transport
                               None refused_error "localhost" (Some 4444%N))))
        "start_process" = true)
  /\ message (decorated (handleConnectError spec_imports chrome_transport
                           None window_error "localhost" (Some 4444%N)))
     = "An error occurred while creating a new ChromeDriver session: [NoSuchWindowError] no such window".
Proof.
  split.
  - apply (proj1 (handleConnectError_message spec_imports chrome_transport
                    None refused_error "localhost" (Some 4444%N))).
    reflexivity.
  - apply (proj2 (handleConnectError_message spec_imports chrome_transport
                    None window_error "localhost" (Some 4444%N))).
    reflexivity.
Defined.

(** C9 as stated fails: an error with another code whose own message quotes
    [start_process] gives a message that names it. *)
Lemma handleConnectError_other_code_names_start_process :
  code_is quoting_error "ECONNREFUSED" = false
  /\ includes
       (message (decorated (handleConnectError spec_imports chrome_transport
                              None quoting_error "localhost" (Some 4444%N))))
       "start_process" = true.
Proof. split; vm_compute; reflexivity. Qed.

(** ** The capability matcher *)

Lemma getCapabilityValue_lookup (e : ExistingCaps) (k : string) :
  getCapabilityValue (Some e) k = lookup_existing e k.
Proof. now destruct e. Qed.

Lemma existingBrowserName_lookup (e : ExistingCaps) :
  existingBrowserName e = lookup_existing e "browserName".
Proof. now destruct e. Qed.

Lemma differs_absent_or_equal (a b : JsVal) :
  differs a b = negb (absent_or_equal a b).
Proof.
  unfold differs, absent_or_equal.
  destruct (truthy a), (truthy b), (strict_eq a b); reflexivity.
Qed.

Ltac settle_nonempty :=
  repeat (cbn -[toLowerCase String.eqb nonempty];
          rewrite ?nonempty_toLowerCase;
          repeat match goal with
                 | H : nonempty ?s = _ |- _ => rewrite H
                 end;
          match goal with
          | |- context [nonempty ?s] => destruct (nonempty s) eqn:?
          end);
  cbn -[toLowerCase String.eqb nonempty];
  try reflexivity;
  try (now destruct (String.eqb _ _)).

Lemma platformMismatch_spec (d : Obj) (e : ExistingCaps) :
  string_or_absent (obj_get d "platformName") = true ->
  string_or_absent (lookup_existing e "platformName") = true ->
  string_or_absent (lookup_existing e "platform") = true ->
  platformMismatch d e = Return (negb (platform_ok d e)).
Proof.
  unfold platformMismatch, platform_ok, desired_platform, existing_platform,
    str_or, present, differs_str, absent_or_equal_ci.
  rewrite !getCapabilityValue_lookup.
  intros Hd He1 He2.
  destruct (obj_get d "platformName") as [[x|?|?]|];
    try discriminate Hd;
    destruct (lookup_existing e "platformName") as [[y|?|?]|];
    try discriminate He1;
    destruct (lookup_existing e "platform") as [[z|?|?]|];
    try discriminate He2;
    settle_nonempty.
Qed.

Lemma browserMismatch_spec (d : Obj) (e : ExistingCaps) :
  string_or_absent (obj_get d "browserName") = true ->
  string_or_absent (lookup_existing e "browserName") = true ->
  browserMismatch d e = Return (negb (browser_ok d e)).
Proof.
  unfold browserMismatch, browser_ok, desired_browser, existing_browser,
    absent_or_equal_ci, truthy.
  rewrite existingBrowserName_lookup.
  intros Hd He.
  destruct (obj_get d "browserName") as [[x|?|?]|];
    try discriminate Hd;
    destruct (lookup_existing e "browserName") as [[y|?|?]|];
    try discriminate He;
    settle_nonempty.
Qed.

Lemma iosMismatch_spec (d : Obj) (e : ExistingCaps) :
  iosMismatch d e = negb (ios_device_ok d e && ios_bundle_ok d e).
Proof.
  unfold iosMismatch, ios_device_ok, ios_bundle_ok, desired_field,
    existing_field.
  rewrite !getCapabilityValue_lookup, !differs_absent_or_equal.
  now destruct (absent_or_equal _ _), (absent_or_equal _ _).
Qed.

Lemma androidMismatch_spec (d : Obj) (e : ExistingCaps) :
  androidMismatch d e = negb (android_device_ok d e && android_package_ok d e).
Proof.
  unfold androidMismatch, android_device_ok, android_package_ok,
    desired_field, existing_field.
  rewrite !getCapabilityValue_lookup, !differs_absent_or_equal.
  now destruct (absent_or_equal _ _), (absent_or_equal _ _).
Qed.

Lemma capabilitiesMatch_compared (imp : Imports) (d : Obj) (e : ExistingCaps) :
  names_are_strings d e = true ->
  capabilitiesMatch imp d (Some e) = Return (compared_fields_ok imp d e).
Proof.
  unfold names_are_strings. intros H.
  repeat (apply andb_true_iff in H as [H ?]).
  unfold capabilitiesMatch, compared_fields_ok.
  rewrite platformMismatch_spec, browserMismatch_spec,
    iosMismatch_spec, androidMismatch_spec by assumption.
  destruct (isMobile imp d), (isIos imp d), (isAndroid imp d),
    (platform_ok d e), (ios_device_ok d e), (ios_bundle_ok d e),
    (android_device_ok d e), (android_package_ok d e), (browser_ok d e);
    reflexivity.
Qed.

(** C6, amended: for capabilities whose platform and browser names are
    strings where given, [capabilitiesMatch] is false when there are no
    existing capabilities; otherwise it is true exactly when the fields it
    compares are each absent on a side or equal: the platform name (without
    regard to case) only when the desired capabilities are mobile, the iOS
    device and bundle identifiers only when they are iOS, the Android device
    identifier and package only when they are Android, and the browser name
    (without regard to case) always.  So it is true when every field is
    absent on a side or equal, and false when a field that is compared for
    the desired platform is present on both sides and differs. *)
Theorem capabilitiesMatch_spec (imp : Imports) (d : Obj) (e : ExistingCaps) :
  names_are_strings d e = true ->
  capabilitiesMatch imp d None = Return false
  /\ capabilitiesMatch imp d (Some e) = Return (compared_fields_ok imp d e)
  /\ (all_fields_ok d e = true -> capabilitiesMatch imp d (Some e) = Return true)
  /\ (isMobile imp d = true -> platform_ok d e = false ->
      capabilitiesMatch imp d (Some e) = Return false)
  /\ (isMobile imp d = true -> isIos imp d = true ->
      ios_device_ok d e = false \/ ios_bundle_ok d e = false ->
      capabilitiesMatch imp d (Some e) = Return false)
  /\ (isMobile imp d = true -> isAndroid imp d = true ->
      android_device_ok d e = false \/ android_package_ok d e = false ->
      capabilitiesMatch imp d (Some e) = Return false)
  /\ (browser_ok d e = false ->
      capabilitiesMatch imp d (Some e) = Return false).
Proof.
  intros H. rewrite (capabilitiesMatch_compared imp d e H).
  unfold compared_fields_ok, all_fields_ok.
  repeat split.
  - intros Hall.
    repeat (apply andb_true_iff in Hall as [Hall ?]).
    repeat match goal with
           | E : _ = true |- _ => rewrite E
           end.
    now destruct (isMobile imp d), (isIos imp d), (isAndroid imp d).
  - intros -> ->. reflexivity.
  - intros -> -> [-> | ->]; cbn;
      now destruct (platform_ok d e), (ios_device_ok d e).
  - intros -> -> [-> | ->]; cbn;
      destruct (platform_ok d e), (isIos imp d), (ios_device_ok d e),
        (ios_bundle_ok d e), (android_device_ok d e); reflexivity.
  - intros ->. now rewrite andb_false_r.
Qed.

Lemma capabilitiesMatch_spec_witness :
  capabilitiesMatch spec_imports ios_safari (Some ios_safari_session)
  = Return true
  /\ capabilitiesMatch spec_imports ios_safari (Some ios_other_device_session)
     = Return false.
Proof.
  split.
  - apply (proj1 (proj2 (proj2
             (capabilitiesMatch_spec spec_imports ios_safari
                ios_safari_session eq_refl)))).
    reflexivity.
  - apply (proj1 (proj2 (proj2 (proj2 (proj2
             (capabilitiesMatch_spec spec_imports ios_safari
                ios_other_device_session eq_refl)))))).
    + reflexivity.
    + reflexivity.
    + left. reflexivity.
Defined.

(** C6 as stated fails: for desktop capabilities the platform name is not
    compared, so a platform name given on both sides and different does not
    make the matcher answer false. *)
Lemma capabilitiesMatch_desktop_platform_ignored :
  platform_ok windows_chrome linux_chrome_session = false
  /\ capabilitiesMatch spec_imports windows_chrome (Some linux_chrome_session)
     = Return true.
Proof. split; vm_compute; reflexivity. Qed.

(** ** The session cache *)

(** Running a method step by step. *)
Ltac run_method :=
  unfold call in *;
  unfold bind, try_catch, gets, modify, await, ret, throw in *;
  cbn [fst snd] in *.

Ltac split_cases :=
  repeat (match goal with
          | |- context [match ?x with _ => _ end] =>
              lazymatch x with
              | context [match _ with _ => _ end] => fail
              | _ => destruct x eqn:?
              end
          end; cbn in *).

Arguments capabilitiesMatch : simpl never.
Arguments race_with_timeout : simpl never.
Arguments sessionCheckTimeout : simpl never.

Lemma shouldReuseDriver_post (imp : Imports) (this : Instance) (w : World)
  (reuseBrowser : bool) (st : State) :
  let r := fst (shouldReuseDriver imp this w reuseBrowser st) in
  let st' := snd (shouldReuseDriver imp this w reuseBrowser st) in
  _driverService st' = _driverService st
  /\ this_driverService st' = this_driverService st
  /\ (_driver st' = _driver st \/ _driver st' = None)
  /\ (r = Return true -> isSome (_driver st') = true)
  /\ (cache_inv st -> cache_inv st').
Proof.
  unfold shouldReuseDriver, clearDriverAndCache, fillCache, cache_inv.
  run_method. split_cases; repeat split; auto; try discriminate;
    try congruence;
    intros;
    match goal with
    | H : _driver st = Some _ |- _ => rewrite H; reflexivity
    end.
Qed.

Arguments shouldReuseDriver : simpl never.

(** C10: whatever its argument, the world and the state, [shouldReuseDriver]
    leaves the driver-service slot as it was, and the driver-handle slot
    afterwards holds what it held before or is empty. *)
Theorem shouldReuseDriver_frame (imp : Imports) (this : Instance) (w : World)
  (reuseBrowser : bool) (st : State) :
  let st' := snd (shouldReuseDriver imp this w reuseBrowser st) in
  _driverService st' = _driverService st
  /\ (_driver st' = _driver st \/ _driver st' = None).
Proof.
  destruct (shouldReuseDriver_post imp this w reuseBrowser st)
    as [H1 [_ [H2 _]]].
  split; assumption.
Qed.

(** The events [shouldReuseDriver] adds to the trace: the session check on
    the cached driver with the timeout of the platform, and the two reads of
    the cache fill. *)
Lemma shouldReuseDriver_trace (imp : Imports) (this : Instance) (w : World)
  (reuseBrowser : bool) (st : State) :
  exists evs,
    trace (snd (shouldReuseDriver imp this w reuseBrowser st))
    = (trace st ++ evs)%list
    /\ forall ev, In ev evs ->
         (exists d, _driver st = Some d
                    /\ ev = EvGetSession d (sessionCheckTimeout imp this))
         \/ ev = EvSessionGetId \/ ev = EvSessionGetCapabilities.
Proof.
  unfold shouldReuseDriver, clearDriverAndCache, fillCache.
  run_method. split_cases;
    rewrite <- ?app_assoc; cbn [app];
    try (exists []; rewrite app_nil_r; split;
         [reflexivity | intros ev []]);
    (eexists; split; [reflexivity|];
     cbn; intros ev Hin;
     repeat match goal with
            | H : _ \/ _ |- _ => destruct H
            | H : False |- _ => destruct H
            end; subst; eauto).
Qed.

(** The same, when the capabilities do not match: both slots are emptied
    and nothing is called. *)
Lemma shouldReuseDriver_on_mismatch (imp : Imports) (this : Instance)
  (w : World) (st : State) (d : Driver) (info : CachedSessionInfo)
  (caps : ExistingCaps) :
  _driver st = Some d ->
  _cachedSessionInfo st = Some info ->
  capabilities info = Some caps ->
  capabilitiesMatch imp (desiredCapabilities (settings this)) (Some caps)
  = Return false ->
  shouldReuseDriver imp this w true st = (Return false, cleared st).
Proof.
  intros Hd Hc Hcaps Hm.
  unfold shouldReuseDriver, clearDriverAndCache. run_method.
  repeat (cbn; rewrite ?Hd, ?Hc, ?Hcaps, ?Hm). reflexivity.
Qed.

(** A cached driver that passes the matcher and answers the session check
    in time is reused; the check is the only call. *)
Lemma shouldReuseDriver_on_healthy (imp : Imports) (this : Instance)
  (w : World) (st : State) (d : Driver) (info : CachedSessionInfo)
  (caps : ExistingCaps) (session : Session) :
  _driver st = Some d ->
  _cachedSessionInfo st = Some info ->
  capabilities info = Some caps ->
  capabilitiesMatch imp (desiredCapabilities (settings this)) (Some caps)
  = Return true ->
  race_with_timeout (driver_getSession w d) (sessionCheckTimeout imp this)
  = Return session ->
  shouldReuseDriver imp this w true st
  = (Return true,
     log_event (EvGetSession d (sessionCheckTimeout imp this)) st).
Proof.
  intros Hd Hc Hcaps Hm Hr.
  unfold shouldReuseDriver, clearDriverAndCache. run_method.
  repeat (cbn; rewrite ?Hd, ?Hc, ?Hcaps, ?Hm, ?Hr). reflexivity.
Qed.

(** A session check that fails or times out empties both slots. *)
Lemma shouldReuseDriver_on_dead (imp : Imports) (this : Instance)
  (w : World) (st : State) (d : Driver) (e : ErrorObj) :
  _driver st = Some d ->
  (forall info caps,
      _cachedSessionInfo st = Some info -> capabilities info = Some caps ->
      capabilitiesMatch imp (desiredCapabilities (settings this)) (Some caps)
      = Return true) ->
  race_with_timeout (driver_getSession w d) (sessionCheckTimeout imp this)
  = Throw e ->
  shouldReuseDriver imp this w true st
  = (Return false,
     cleared (log_event (EvGetSession d (sessionCheckTimeout imp this)) st)).
Proof.
  intros Hd Hm Hr.
  unfold shouldReuseDriver, clearDriverAndCache. run_method.
  rewrite Hd. cbn.
  destruct (_cachedSessionInfo st) as [info|] eqn:Hc;
    [destruct (capabilities info) as [caps|] eqn:Hcaps;
     [rewrite (Hm info caps eq_refl Hcaps)|]|];
    repeat (cbn; rewrite ?Hd, ?Hr); reflexivity.
Qed.

(** C4: when the cached session info is present and its capabilities do not
    match the desired ones, in a cache where the info is there only with a
    driver handle, [shouldReuseDriver(true)] answers false, empties both the
    driver-handle slot and the cached-session-info slot, and calls nothing:
    the trace is as before, so the cached driver is not asked for its
    session. *)
Theorem shouldReuseDriver_mismatch_skips_probe (imp : Imports)
  (this : Instance) (w : World) (st : State) (info : CachedSessionInfo)
  (caps : ExistingCaps) :
  cache_inv st ->
  _cachedSessionInfo st = Some info ->
  capabilities info = Some caps ->
  capabilitiesMatch imp (desiredCapabilities (settings this)) (Some caps)
  = Return false ->
  let r := fst (shouldReuseDriver imp this w true st) in
  let st' := snd (shouldReuseDriver imp this w true st) in
  r = Return false
  /\ _driver st' = None
  /\ _cachedSessionInfo st' = None
  /\ trace st' = trace st.
Proof.
  intros Hinv Hc Hcaps Hm.
  assert (Hd : isSome (_driver st) = true) by (apply Hinv; now rewrite Hc).
  destruct (_driver st) as [d|] eqn:Ed; [|discriminate Hd].
  cbv zeta.
  rewrite (shouldReuseDriver_on_mismatch imp this w st d info caps Ed Hc
             Hcaps Hm).
  repeat split.
Qed.

Lemma shouldReuseDriver_mismatch_skips_probe_witness :
  let st := cached_state ios_other_device_session in
  let st' := snd (shouldReuseDriver spec_imports ios_transport healthy_world
                    true st) in
  fst (shouldReuseDriver spec_imports ios_transport healthy_world true st)
  = Return false
  /\ _driver st' = None
  /\ _cachedSessionInfo st' = None
  /\ trace st' = trace st.
Proof.
  apply (shouldReuseDriver_mismatch_skips_probe spec_imports ios_transport
           healthy_world (cached_state ios_other_device_session)
           {| sessionId := "b0a1";
              capabilities := Some ios_other_device_session |}
           ios_other_device_session).
  - intros _. reflexivity.
  - reflexivity.
  - reflexivity.
  - vm_compute. reflexivity.
Defined.

(** ** The timeout of the session check *)

(** C3, amended: the timeout of the session check does not come from the
    settings: it is 2000 ms when the desired capabilities are mobile and
    1000 ms otherwise, whatever the timeout knobs hold, it is the timeout
    with which [shouldReuseDriver] asks the cached driver for its session,
    and the timeout for mobile capabilities is strictly longer than the one
    for desktop capabilities. *)
Theorem sessionCheckTimeout_fixed (imp : Imports) (this : Instance) :
  sessionCheckTimeout imp this
  = (if isMobile imp (desiredCapabilities (settings this)) then 2000%Z
     else 1000%Z)
  /\ (forall knobs,
         sessionCheckTimeout imp (with_timeout_knobs this knobs)
         = sessionCheckTimeout imp this)
  /\ (forall w reuseBrowser st d t,
         In (EvGetSession d t)
            (trace (snd (shouldReuseDriver imp this w reuseBrowser st))) ->
         In (EvGetSession d t) (trace st)
         \/ t = sessionCheckTimeout imp this)
  /\ (forall desktop : Instance,
         isMobile imp (desiredCapabilities (settings this)) = true ->
         isMobile imp (desiredCapabilities (settings desktop)) = false ->
         (sessionCheckTimeout imp desktop < sessionCheckTimeout imp this)%Z).
Proof.
  repeat split.
  - intros w reuseBrowser st d t Hin.
    destruct (shouldReuseDriver_trace imp this w reuseBrowser st)
      as [evs [Ht Hevs]].
    rewrite Ht in Hin. apply in_app_or in Hin as [Hin|Hin]; [now left|].
    right. destruct (Hevs _ Hin) as [[d' [_ E]]|[E|E]];
      [now inversion E|discriminate E|discriminate E].
  - intros desktop Hm Hd. unfold sessionCheckTimeout.
    rewrite Hm, Hd. reflexivity.
Qed.

Lemma sessionCheckTimeout_fixed_witness :
  (sessionCheckTimeout spec_imports chrome_transport
   < sessionCheckTimeout spec_imports ios_transport)%Z.
Proof.
  apply (proj2 (proj2 (proj2
           (sessionCheckTimeout_fixed spec_imports ios_transport))));
    reflexivity.
Defined.

(** C3 as stated fails: with both timeout knobs set, to 5000 and 9000, the
    timeout of the session check is neither: it is no value of a knob. *)
Lemma sessionCheckTimeout_not_a_knob :
  ~ timeout_is_a_knob spec_imports knobbed_transport.
Proof.
  intros [knob H]. vm_compute in H.
  destruct H as [H|[H|[]]]; discriminate H.
Qed.

(** ** The cache across the operations *)

Arguments getDriver : simpl never.

Lemma sessionFinished_slots (w : World) (reason : string) (st : State) :
  let st' := snd (sessionFinished w reason st) in
  _cachedSessionInfo st' = None /\ _driver st' = _driver st.
Proof.
  unfold sessionFinished, closeDriver. run_method.
  split_cases; split; reflexivity.
Qed.

(** Starting the driver service touches neither cache slot and calls
    nothing at the remote end. *)
Lemma createDriverService_slots (this : Instance) (w : World)
  (options : Options) (moduleKey : option string) (reuseBrowser : bool)
  (st : State) :
  let st' := snd (createDriverService this w options moduleKey reuseBrowser st) in
  _driver st' = _driver st
  /\ _cachedSessionInfo st' = _cachedSessionInfo st
  /\ exists evs, trace st' = (trace st ++ evs)%list
                 /\ existsb is_remote_call evs = false.
Proof.
  unfold createDriverService, shouldReuseDriverService. run_method.
  split_cases; repeat split;
    try (exists []; rewrite app_nil_r; split; reflexivity);
    (eexists; split; reflexivity).
Qed.

Lemma prepare_slots (this : Instance) (w : World) (argv : Argv)
  (moduleKey : option string) (reuseBrowser : bool) (st : State) :
  let st' := snd (prepare this w argv moduleKey reuseBrowser st) in
  _driver st' = _driver st
  /\ _cachedSessionInfo st' = _cachedSessionInfo st
  /\ exists evs, trace st' = (trace st ++ evs)%list
                 /\ existsb is_remote_call evs = false.
Proof.
  unfold prepare. run_method. cbn.
  destruct (createSessionOptions w argv) as [options|e]; cbn;
    [|repeat split; eexists; split; reflexivity].
  destruct (start_process (webdriver (settings this)));
    [|cbn; repeat split; eexists; split; reflexivity].
  pose proof (createDriverService_slots this w options moduleKey reuseBrowser
                (log_event (EvCreateSessionOptions argv) st)) as P.
  cbv zeta in P.
  destruct (createDriverService this w options moduleKey reuseBrowser
              (log_event (EvCreateSessionOptions argv) st)) as [r st1].
  cbn [fst snd] in P. destruct P as [P1 [P2 [evs [P3 P4]]]].
  assert (Q : exists evs0, trace st1 = (trace st ++ evs0)%list
                           /\ existsb is_remote_call evs0 = false).
  { exists (EvCreateSessionOptions argv :: evs). split; [|exact P4].
    rewrite P3. cbn. now rewrite <- app_assoc. }
  destruct r; cbn; repeat split; assumption.
Qed.

Lemma getDriver_post (imp : Imports) (this : Instance) (w : World)
  (options : Options) (reuseBrowser : bool) (st : State) :
  cache_inv st ->
  let r := fst (getDriver imp this w options reuseBrowser st) in
  let st' := snd (getDriver imp this w options reuseBrowser st) in
  cache_inv st' /\ (forall d, r = Return d -> isSome (_driver st') = true).
Proof.
  intros Hinv. unfold getDriver, createDriver. run_method.
  pose proof (shouldReuseDriver_post imp this w reuseBrowser st) as P.
  cbv zeta in P.
  destruct (shouldReuseDriver imp this w reuseBrowser st) as [r st1].
  cbn [fst snd] in P. destruct P as (_ & _ & _ & Ptrue & Pinv).
  specialize (Pinv Hinv). unfold cache_inv in *.
  destruct r as [[|]|e]; cbn.
  - split; [exact Pinv|]. intros _ _. now apply Ptrue.
  - destruct (builder_build w options); cbn; split; auto; discriminate.
  - split; [exact Pinv|discriminate].
Qed.

Lemma connect_inv (imp : Imports) (this : Instance) (w : World)
  (options : Options) (reuseBrowser : bool) (st : State) :
  cache_inv st ->
  cache_inv (snd (connect imp this w options reuseBrowser st)).
Proof.
  intros Hinv. unfold connect, showConnectInfo. run_method.
  pose proof (shouldReuseDriver_post imp this w reuseBrowser st) as P.
  cbv zeta in P.
  destruct (shouldReuseDriver imp this w reuseBrowser st) as [r st1].
  cbn [fst snd] in P. destruct P as (_ & _ & _ & Ptrue & Pinv).
  specialize (Pinv Hinv).
  destruct r as [[|]|e]; cbn.
  - specialize (Ptrue eq_refl). unfold cache_inv in *.
    split_cases; auto.
  - pose proof (getDriver_post imp this w options reuseBrowser st1 Pinv) as G.
    cbv zeta in G.
    destruct (getDriver imp this w options reuseBrowser st1) as [r2 st2].
    cbn [fst snd] in G. destruct G as [Ginv Gsome].
    destruct r2 as [d2|e2]; cbn; [|exact Ginv].
    specialize (Gsome d2 eq_refl). unfold cache_inv in *.
    split_cases; auto.
  - exact Pinv.
Qed.

Lemma createSession_inv (imp : Imports) (this : Instance) (w : World)
  (argv : Argv) (moduleKey : option string) (reuseBrowser : bool)
  (st : State) :
  cache_inv st ->
  cache_inv (snd (createSession imp this w argv moduleKey reuseBrowser st)).
Proof.
  intros Hinv. unfold createSession.
  pose proof (prepare_slots this w argv moduleKey reuseBrowser st) as P.
  cbv zeta in P.
  destruct (prepare this w argv moduleKey reuseBrowser st) as [r st1].
  cbn [fst snd] in P. destruct P as [P1 [P2 _]].
  assert (Hinv1 : cache_inv st1).
  { unfold cache_inv in *. now rewrite P1, P2. }
  destruct r as [options|e]; cbn; [|exact Hinv1].
  pose proof (connect_inv imp this w options reuseBrowser st1 Hinv1) as C.
  destruct (connect imp this w options reuseBrowser st1) as [r2 st2].
  now destruct r2.
Qed.

Lemma sessionFinished_inv (w : World) (reason : string) (st : State) :
  cache_inv (snd (sessionFinished w reason st)).
Proof.
  destruct (sessionFinished_slots w reason st) as [Hc _].
  intros H. cbv zeta in Hc. rewrite Hc in H. discriminate H.
Qed.

Lemma reachable_cache_inv (st : State) : reachable st -> cache_inv st.
Proof.
  induction 1 as [|imp this w argv moduleKey reuseBrowser st _ IH
                  |imp this w reuseBrowser st _ IH
                  |w reason st _ IH].
  - intros H. discriminate H.
  - now apply createSession_inv.
  - now apply (shouldReuseDriver_post imp this w reuseBrowser st).
  - apply sessionFinished_inv.
Qed.

(** C1, amended: the cached session info is present only while the driver
    handle is: this holds in every state the cache can reach from the
    initial one, being kept by [sessionFinished], [shouldReuseDriver] and
    [createSession], however they end.  On a capability mismatch and on a
    session check that fails or times out, both the driver-handle slot and
    the cached-session-info slot are emptied.  On session finish the
    cached-session-info slot is emptied and the driver-handle slot is left
    as it was. *)
Theorem cache_invariant :
  (forall st, reachable st -> cache_inv st)
  /\ forall (imp : Imports) (this : Instance) (w : World) (st : State),
      cache_inv st ->
      (forall reason,
          let st' := snd (sessionFinished w reason st) in
          cache_inv st' /\ _cachedSessionInfo st' = None
          /\ _driver st' = _driver st)
      /\ (forall reuseBrowser,
             cache_inv (snd (shouldReuseDriver imp this w reuseBrowser st)))
      /\ (forall argv moduleKey reuseBrowser,
             cache_inv (snd (createSession imp this w argv moduleKey
                               reuseBrowser st)))
      /\ (forall info caps,
             _cachedSessionInfo st = Some info ->
             capabilities info = Some caps ->
             capabilitiesMatch imp (desiredCapabilities (settings this))
                               (Some caps) = Return false ->
             let st' := snd (shouldReuseDriver imp this w true st) in
             _driver st' = None /\ _cachedSessionInfo st' = None)
      /\ (forall d e,
             _driver st = Some d ->
             (forall info caps,
                 _cachedSessionInfo st = Some info ->
                 capabilities info = Some caps ->
                 capabilitiesMatch imp (desiredCapabilities (settings this))
                                   (Some caps) = Return true) ->
             race_with_timeout (driver_getSession w d)
                               (sessionCheckTimeout imp this) = Throw e ->
             let st' := snd (shouldReuseDriver imp this w true st) in
             _driver st' = None /\ _cachedSessionInfo st' = None).
Proof.
  split; [exact reachable_cache_inv|].
  intros imp this w st Hinv. repeat split.
  - apply sessionFinished_inv.
  - apply sessionFinished_slots.
  - apply sessionFinished_slots.
  - intros reuseBrowser.
    now apply (shouldReuseDriver_post imp this w reuseBrowser st).
  - intros argv moduleKey reuseBrowser. now apply createSession_inv.
  - assert (Hd : isSome (_driver st) = true) by (apply Hinv; now rewrite H).
    destruct (_driver st) as [d|] eqn:Ed; [|discriminate Hd].
    now rewrite (shouldReuseDriver_on_mismatch imp this w st d info caps).
  - assert (Hd : isSome (_driver st) = true) by (apply Hinv; now rewrite H).
    destruct (_driver st) as [d|] eqn:Ed; [|discriminate Hd].
    now rewrite (shouldReuseDriver_on_mismatch imp this w st d info caps).
  - now rewrite (shouldReuseDriver_on_dead imp this w st d e).
  - now rewrite (shouldReuseDriver_on_dead imp this w st d e).
Qed.

Lemma cache_invariant_witness :
  cache_inv (snd (sessionFinished healthy_world "done"
                    (snd (createSession spec_imports ios_transport
                            healthy_world 0 None true initial_state))))
  /\ cache_inv (snd (createSession spec_imports ios_transport healthy_world
                       0 None true (cached_state ios_safari_session)))
  /\ (let st' := snd (shouldReuseDriver spec_imports ios_transport
                        healthy_world true
                        (cached_state ios_other_device_session)) in
      _driver st' = None /\ _cachedSessionInfo st' = None).
Proof.
  split; [|split].
  - apply (proj1 cache_invariant).
    apply reach_sessionFinished, reach_createSession, reach_initial.
  - apply (proj2 cache_invariant spec_imports ios_transport healthy_world
             (cached_state ios_safari_session) (fun _ => eq_refl)).
  - apply (proj1 (proj2 (proj2 (proj2
             (proj2 cache_invariant spec_imports ios_transport healthy_world
                (cached_state ios_other_device_session)
                (fun _ => eq_refl)))))
             {| sessionId := "b0a1";
                capabilities := Some ios_other_device_session |}
             ios_other_device_session).
    + reflexivity.
    + reflexivity.
    + vm_compute. reflexivity.
Defined.

(** C1 as stated fails: on session finish the driver-handle slot is not
    emptied; only the cached session info is. *)
Lemma sessionFinished_keeps_driver :
  ~ (_driver (snd (sessionFinished healthy_world "done"
                     (cached_state ios_safari_session))) = None
     /\ _cachedSessionInfo (snd (sessionFinished healthy_world "done"
                                   (cached_state ios_safari_session)))
        = None).
Proof. vm_compute. intros [H _]. discriminate H. Qed.

(** ** Reusing the cached driver *)

(** C5: when reuse is requested, the cache holds a driver that answers the
    session check in time and session info whose capabilities match the
    desired ones, and the steps before the check, the session export and the
    display of the session info succeed, [createSession] returns the
    exported session id and capabilities with the host and port.  No driver
    is built: the driver-handle slot still holds the cached driver, and the
    only calls to the remote end are the session check and the session
    export. *)
Theorem createSession_reuses_driver (imp : Imports) (this : Instance)
  (w : World) (argv : Argv) (moduleKey : option string) (st st1 : State)
  (options : Options) (d : Driver) (info : CachedSessionInfo)
  (caps : ExistingCaps) (session : Session) (exports : SessionExports) :
  prepare this w argv moduleKey true st = (Return options, st1) ->
  _driver st = Some d ->
  _cachedSessionInfo st = Some info ->
  capabilities info = Some caps ->
  capabilitiesMatch imp (desiredCapabilities (settings this)) (Some caps)
  = Return true ->
  race_with_timeout (driver_getSession w d) (sessionCheckTimeout imp this)
  = Return session ->
  session_exported w (Some d) = Return exports ->
  displayable this (exp_sessionInfo exports) = true ->
  let r := fst (createSession imp this w argv moduleKey true st) in
  let st' := snd (createSession imp this w argv moduleKey true st) in
  r = Return {| res_sessionId := exp_sessionId exports;
                res_capabilities := exp_capabilities exports;
                res_host := host (webdriver (settings this));
                res_port := port (webdriver (settings this)) |}
  /\ _driver st' = Some d
  /\ this_driver st' = Some d
  /\ exists before,
       trace st'
       = (trace st ++ before
          ++ [EvGetSession d (sessionCheckTimeout imp this);
              EvSessionExported (Some d)])%list
       /\ existsb is_remote_call before = false
       /\ existsb is_build
            (before ++ [EvGetSession d (sessionCheckTimeout imp this);
                        EvSessionExported (Some d)]) = false.
Proof.
  intros Hprep Hd Hc Hcaps Hm Hr Hexp Hshow.
  pose proof (prepare_slots this w argv moduleKey true st) as P.
  cbv zeta in P. rewrite Hprep in P. cbn [fst snd] in P.
  destruct P as [P1 [P2 [before [P3 P4]]]].
  rewrite Hd in P1. rewrite Hc in P2.
  assert (Hbuild : existsb is_build
            (before ++ [EvGetSession d (sessionCheckTimeout imp this);
                        EvSessionExported (Some d)]) = false).
  { rewrite existsb_app. cbn. rewrite orb_false_r.
    clear - P4. induction before as [|ev evs IH]; [reflexivity|].
    cbn in *. apply orb_false_iff in P4 as [Hev Hevs].
    rewrite (IH Hevs). now destruct ev. }
  cbv zeta. unfold createSession. rewrite Hprep.
  unfold connect. run_method.
  rewrite (shouldReuseDriver_on_healthy imp this w st1 d info caps session
             P1 P2 Hcaps Hm Hr).
  cbn. rewrite P1. cbn. rewrite Hexp. cbn.
  unfold showConnectInfo, outputEnabled, displayable in *. run_method.
  assert (Htrace : forall X : list Event,
             X = (trace st1 ++ [EvGetSession d (sessionCheckTimeout imp this)]
                  ++ [EvSessionExported (Some d)])%list ->
             X = (trace st ++ before
                  ++ [EvGetSession d (sessionCheckTimeout imp this);
                      EvSessionExported (Some d)])%list).
  { intros X ->. rewrite P3. now rewrite <- app_assoc. }
  destruct (output (settings this)); cbn in Hshow;
    [destruct (exp_sessionInfo exports) as [i|]; [|discriminate Hshow];
     destruct (appId i); [|discriminate Hshow];
     destruct (platform i); [|discriminate Hshow]|];
    destruct (exp_sessionId exports) as [sid|];
    destruct (exp_capabilities exports) as [c|];
    try destruct (nonempty sid);
    cbn; rewrite ?P1;
    (split; [reflexivity|]); (split; [reflexivity|]);
    (split; [reflexivity|]);
    exists before; (split; [|split; assumption]);
    apply Htrace; now rewrite <- app_assoc.
Qed.

Lemma createSession_reuses_driver_witness :
  let st := cached_state ios_safari_session in
  let st' := snd (createSession spec_imports ios_transport healthy_world
                    0 None true st) in
  fst (createSession spec_imports ios_transport healthy_world 0 None true st)
  = Return {| res_sessionId := Some "b0a1";
              res_capabilities := Some ios_safari_session;
              res_host := "localhost";
              res_port := Some 4444%N |}
  /\ _driver st' = Some 7
  /\ this_driver st' = Some 7
  /\ exists before,
       trace st'
       = (trace st ++ before
          ++ [EvGetSession 7 2000%Z; EvSessionExported (Some 7)])%list
       /\ existsb is_remote_call before = false
       /\ existsb is_build
            (before ++ [EvGetSession 7 2000%Z; EvSessionExported (Some 7)])
          = false.
Proof.
  apply (createSession_reuses_driver spec_imports ios_transport healthy_world
           0 None (cached_state ios_safari_session)
           (log_event (EvCreateSessionOptions 0)
              (cached_state ios_safari_session))
           0 7
           {| sessionId := "b0a1"; capabilities := Some ios_safari_session |}
           ios_safari_session sample_session sample_exports);
    try reflexivity; vm_compute; reflexivity.
Defined.

(** * Further properties *)

(** ** Plain objects, continued *)

Lemma obj_get_set_same (o : Obj) (k : string) (v : Value) :
  obj_get (obj_set o k v) k = Some v.
Proof.
  induction o as [|[k' v'] r IH]; simpl.
  - now rewrite String.eqb_refl.
  - destruct (String.eqb k' k) eqn:E; simpl.
    + now rewrite String.eqb_refl.
    + now rewrite E.
Qed.

Lemma obj_get_set_other (o : Obj) (k k2 : string) (v : Value) :
  k <> k2 -> obj_get (obj_set o k v) k2 = obj_get o k2.
Proof.
  intros Hne. induction o as [|[k' v'] r IH]; simpl.
  - destruct (String.eqb k k2) eqn:E; [|reflexivity].
    apply String.eqb_eq in E. contradiction.
  - destruct (String.eqb k' k) eqn:E; simpl.
    + apply String.eqb_eq in E. subst k'.
      destruct (String.eqb k k2) eqn:E2; [|reflexivity].
      apply String.eqb_eq in E2. contradiction.
    + destruct (String.eqb k' k2); [reflexivity|exact IH].
Qed.

Lemma obj_get_delete_other (o : Obj) (k k2 : string) :
  k <> k2 -> obj_get (obj_delete o k) k2 = obj_get o k2.
Proof.
  intros Hne. induction o as [|[k' v'] r IH]; simpl; [reflexivity|].
  destruct (String.eqb k' k) eqn:E; simpl.
  - apply String.eqb_eq in E. subst k'.
    destruct (String.eqb k k2) eqn:E2; [|exact IH].
    apply String.eqb_eq in E2. contradiction.
  - destruct (String.eqb k' k2); [reflexivity|exact IH].
Qed.

Lemma obj_get_of_key (o : Obj) (k : string) :
  In k (obj_keys o) -> exists v, obj_get o k = Some v.
Proof.
  induction o as [|[k' v'] r IH]; simpl; [intros []|].
  intros [->|Hin].
  - exists v'. now rewrite String.eqb_refl.
  - destruct (String.eqb k' k); [now exists v'|now apply IH].
Qed.

Lemma obj_keys_set (o : Obj) (k k2 : string) (v : Value) :
  In k2 (obj_keys (obj_set o k v)) -> k2 = k \/ In k2 (obj_keys o).
Proof.
  induction o as [|[k' v'] r IH]; simpl.
  - intros [<-|[]]. now left.
  - destruct (String.eqb k' k) eqn:E; simpl.
    + intros [<-|Hin]; [now left|right; now right].
    + intros [<-|Hin]; [right; now left|].
      destruct (IH Hin) as [->|H]; [now left|right; now right].
Qed.

Lemma obj_keys_delete (o : Obj) (k k2 : string) :
  In k2 (obj_keys (obj_delete o k)) -> k2 <> k /\ In k2 (obj_keys o).
Proof.
  induction o as [|[k' v'] r IH]; simpl; [intros []|].
  destruct (String.eqb k' k) eqn:E; simpl.
  - intros Hin. destruct (IH Hin) as [H1 H2]. split; [exact H1|now right].
  - intros [<-|Hin].
    + split; [|now left]. now apply String.eqb_neq.
    + destruct (IH Hin) as [H1 H2]. split; [exact H1|now right].
Qed.

(** ** The options bag, entry by entry *)

Lemma namespaced_prefixed (k : string) :
  String.prefix Appium.vendor_prefix (Appium.namespaced k) = true.
Proof.
  unfold Appium.namespaced.
  destruct (String.prefix Appium.vendor_prefix k) eqn:E; [exact E|].
  apply prefix_append.
Qed.

Lemma fold_copy_other (bag : Obj) (keys : list string) (acc : Obj)
  (n : string) :
  (forall k, In k keys -> Appium.namespaced k <> n) ->
  obj_get (fold_left (Appium.copy_option bag) keys acc) n = obj_get acc n.
Proof.
  revert acc. induction keys as [|k0 rest IH]; intros acc H; [reflexivity|].
  simpl. rewrite IH by (intros k Hk; apply H; now right).
  unfold Appium.copy_option. destruct (obj_get bag k0); [|reflexivity].
  apply obj_get_set_other, H. now left.
Qed.

Lemma fold_copy_entry (bag : Obj) (keys : list string) (acc : Obj)
  (k : string) (v : Value) :
  NoDup (map Appium.namespaced keys) -> In k keys ->
  obj_get bag k = Some v ->
  obj_get (fold_left (Appium.copy_option bag) keys acc) (Appium.namespaced k)
  = Some v.
Proof.
  revert acc. induction keys as [|k0 rest IH]; intros acc Hnd Hin Hv;
    [destruct Hin|].
  inversion Hnd as [|x l Hnot Hnd']; subst. simpl.
  destruct Hin as [->|Hin]; [|now apply IH].
  rewrite fold_copy_other.
  - unfold Appium.copy_option. rewrite Hv. apply obj_get_set_same.
  - intros k' Hk' E. apply Hnot. rewrite <- E. now apply in_map.
Qed.

Lemma fold_copy_keys (bag : Obj) (keys : list string) (acc : Obj)
  (n : string) :
  In n (obj_keys (fold_left (Appium.copy_option bag) keys acc)) ->
  In n (obj_keys acc) \/ exists k, In k keys /\ n = Appium.namespaced k.
Proof.
  revert acc. induction keys as [|k0 rest IH]; intros acc H; [now left|].
  simpl in H. destruct (IH _ H) as [Hacc|[k [Hk E]]].
  - unfold Appium.copy_option in Hacc.
    destruct (obj_get bag k0); [|now left].
    destruct (obj_keys_set _ _ _ _ Hacc) as [->|Hin]; [|now left].
    right. exists k0. split; [now left|reflexivity].
  - right. exists k. split; [now right|exact E].
Qed.

(** X1: when no two keys of the options bag get the same namespaced name,
    every entry of the bag is found after the flattening under its
    namespaced key, with the value it had in the bag, whatever the
    capabilities held under that key before; the one exception is an entry
    whose namespaced key is the bag key itself. *)
Theorem extractAppiumOptions_entry (d bag : Obj) (k : string) :
  obj_get d Appium.options_key = Some (VObj bag) ->
  NoDup (map Appium.namespaced (obj_keys bag)) ->
  In k (obj_keys bag) ->
  Appium.namespaced k <> Appium.options_key ->
  obj_get (Appium.extractAppiumOptions d) (Appium.namespaced k)
  = obj_get bag k.
Proof.
  intros Hbag Hnd Hin Hne. unfold Appium.extractAppiumOptions.
  rewrite Hbag.
  rewrite obj_get_delete_other by (intros E; apply Hne; now rewrite E).
  destruct (obj_get_of_key bag k Hin) as [v Hv]. rewrite Hv.
  now apply fold_copy_entry.
Qed.

Lemma extractAppiumOptions_entry_witness :
  obj_get (Appium.extractAppiumOptions bagged_caps) "appium:udid"
  = Some (VStr "00008030-A").
Proof.
  apply (extractAppiumOptions_entry bagged_caps
           [("udid", VStr "00008030-A");
            ("appium:bundleId", VStr "com.example.app")] "udid").
  - reflexivity.
  - repeat (constructor; [cbn; intuition discriminate|]). constructor.
  - now left.
  - discriminate.
Defined.

(** X2: the flattening leaves every other capability as it was: a key that
    is neither the bag key nor the namespaced name of a bag entry holds
    after the flattening what it held before. *)
Theorem extractAppiumOptions_other_keys (d bag : Obj) (n : string) :
  obj_get d Appium.options_key = Some (VObj bag) ->
  n <> Appium.options_key ->
  (forall k, In k (obj_keys bag) -> Appium.namespaced k <> n) ->
  obj_get (Appium.extractAppiumOptions d) n = obj_get d n.
Proof.
  intros Hbag Hne Hother. unfold Appium.extractAppiumOptions.
  rewrite Hbag.
  rewrite obj_get_delete_other by (intros E; apply Hne; now rewrite E).
  now apply fold_copy_other.
Qed.

Lemma extractAppiumOptions_other_keys_witness :
  obj_get (Appium.extractAppiumOptions bagged_caps) "platformName"
  = Some (VStr "iOS").
Proof.
  apply (extractAppiumOptions_other_keys bagged_caps
           [("udid", VStr "00008030-A");
            ("appium:bundleId", VStr "com.example.app")] "platformName").
  - reflexivity.
  - discriminate.
  - intros k [<-|[<-|[]]]; discriminate.
Defined.

(** X3: the flattening adds only keys that carry the vendor prefix: a key of
    the flattened capabilities was a key before or starts with [appium:];
    and when there was a bag to flatten, the bag key is gone, also when the
    bag itself had an entry named [options] or [appium:options]. *)
Theorem extractAppiumOptions_keys (d : Obj) (n : string) :
  In n (obj_keys (Appium.extractAppiumOptions d)) ->
  (In n (obj_keys d) \/ String.prefix Appium.vendor_prefix n = true)
  /\ (isObject (obj_get d Appium.options_key) = true ->
      n <> Appium.options_key).
Proof.
  unfold Appium.extractAppiumOptions, isObject.
  destruct (obj_get d Appium.options_key) as [[s|b|bag]|]; intros Hin;
    try (split; [now left|discriminate]).
  apply obj_keys_delete in Hin as [Hne Hin]. split; [|intros _; exact Hne].
  destruct (fold_copy_keys _ _ _ _ Hin) as [H|[k [_ ->]]]; [now left|].
  right. apply namespaced_prefixed.
Qed.

Lemma extractAppiumOptions_keys_witness :
  (In "appium:bundleId" (obj_keys bagged_caps)
   \/ String.prefix Appium.vendor_prefix "appium:bundleId" = true)
  /\ (isObject (obj_get bagged_caps Appium.options_key) = true ->
      "appium:bundleId" <> Appium.options_key).
Proof.
  apply (extractAppiumOptions_keys bagged_caps "appium:bundleId").
  vm_compute. tauto.
Defined.

(** ** The matcher, continued *)

(** X5: for desired capabilities that are not mobile, only the browser name
    is looked at: when one side has no browser name, every existing session
    matches, whatever else differs, and nothing is thrown. *)
Theorem capabilitiesMatch_desktop_without_browser (imp : Imports) (d : Obj)
  (e : ExistingCaps) :
  isMobile imp d = false ->
  truthy (obj_get d "browserName") = false
  \/ truthy (lookup_existing e "browserName") = false ->
  capabilitiesMatch imp d (Some e) = Return true.
Proof.
  intros Hm Hb. unfold capabilitiesMatch, browserMismatch.
  rewrite Hm, existingBrowserName_lookup. cbn.
  destruct Hb as [-> | ->]; [reflexivity|].
  now rewrite andb_false_r.
Qed.

Lemma capabilitiesMatch_desktop_without_browser_witness :
  capabilitiesMatch spec_imports
    [("platformName", VStr "windows")] (Some linux_chrome_session)
  = Return true.
Proof.
  apply capabilitiesMatch_desktop_without_browser;
    [reflexivity|left; reflexivity].
Defined.

Lemma absent_or_equal_same (a : JsVal) :
  scalar a = true -> absent_or_equal a a = true.
Proof.
  unfold absent_or_equal.
  destruct a as [[s|[|]|o]|]; cbn; try reflexivity; try discriminate.
  intros _. rewrite String.eqb_refl. now destruct (nonempty s).
Qed.

Lemma scalar_js_or (a b : JsVal) :
  scalar a = true -> scalar b = true -> scalar (js_or a b) = true.
Proof. unfold js_or. now destruct (truthy a). Qed.

Lemma absent_or_equal_ci_resolved (a b : option string) :
  absent_or_equal_ci a (str_or a b) = true.
Proof.
  unfold absent_or_equal_ci, str_or, present.
  destruct a as [x|]; [|reflexivity].
  destruct (nonempty x) eqn:E.
  - rewrite E, String.eqb_refl. cbn. now rewrite ?orb_true_r.
  - now destruct b.
Qed.

Lemma absent_or_equal_ci_same (a : option string) :
  absent_or_equal_ci a a = true.
Proof.
  unfold absent_or_equal_ci. destruct a as [x|]; [|reflexivity].
  rewrite String.eqb_refl. apply orb_true_r.
Qed.

(** X6: a session that reports exactly the desired capabilities matches
    them, for every platform classification, when the platform and browser
    names are strings where given and no identifier is a nested map. *)
Theorem capabilitiesMatch_same_capabilities (imp : Imports) (d : Obj) :
  names_are_strings d (PlainCaps d) = true ->
  identifiers_scalar d = true ->
  capabilitiesMatch imp d (Some (PlainCaps d)) = Return true.
Proof.
  intros Hn Hs. rewrite (capabilitiesMatch_compared imp d _ Hn).
  unfold identifiers_scalar, identifier_keys in Hs. cbn [forallb] in Hs.
  repeat (apply andb_true_iff in Hs as [? Hs]).
  unfold compared_fields_ok, platform_ok, ios_device_ok, ios_bundle_ok,
    android_device_ok, android_package_ok, browser_ok, desired_platform,
    existing_platform, desired_field, existing_field, desired_browser,
    existing_browser, lookup_existing.
  rewrite absent_or_equal_ci_resolved, absent_or_equal_ci_same.
  rewrite !absent_or_equal_same by (apply scalar_js_or; assumption).
  now destruct (isMobile imp d), (isIos imp d), (isAndroid imp d).
Qed.

Lemma capabilitiesMatch_same_capabilities_witness :
  capabilitiesMatch spec_imports ios_safari (Some (PlainCaps ios_safari))
  = Return true.
Proof.
  apply capabilitiesMatch_same_capabilities; reflexivity.
Defined.

(** ** The reuse check, case by case *)

(** X7: when reuse is not requested, or no driver is cached,
    [shouldReuseDriver] answers false and leaves the whole state as it was:
    no slot is written and nothing is called. *)
Theorem shouldReuseDriver_not_applicable (imp : Imports) (this : Instance)
  (w : World) (reuseBrowser : bool) (st : State) :
  reuseBrowser = false \/ _driver st = None ->
  shouldReuseDriver imp this w reuseBrowser st = (Return false, st).
Proof.
  intros H. unfold shouldReuseDriver. run_method.
  destruct H as [-> | ->]; [reflexivity|].
  now destruct reuseBrowser.
Qed.

Lemma shouldReuseDriver_not_applicable_witness :
  shouldReuseDriver spec_imports ios_transport healthy_world false
    (cached_state ios_safari_session)
  = (Return false, cached_state ios_safari_session).
Proof.
  apply shouldReuseDriver_not_applicable. now left.
Defined.

(** X8: the matcher runs outside the [try] block: when it throws on the
    cached capabilities, [shouldReuseDriver] throws the same error, the
    driver handle and the cached session info stay in their slots and the
    cached driver is not asked for its session. *)
Theorem shouldReuseDriver_matcher_throws (imp : Imports) (this : Instance)
  (w : World) (st : State) (d : Driver) (info : CachedSessionInfo)
  (caps : ExistingCaps) (e : ErrorObj) :
  _driver st = Some d ->
  _cachedSessionInfo st = Some info ->
  capabilities info = Some caps ->
  capabilitiesMatch imp (desiredCapabilities (settings this)) (Some caps)
  = Throw e ->
  shouldReuseDriver imp this w true st = (Throw e, st).
Proof.
  intros Hd Hc Hcaps Hm.
  unfold shouldReuseDriver, clearDriverAndCache. run_method.
  repeat (cbn; rewrite ?Hd, ?Hc, ?Hcaps, ?Hm). reflexivity.
Qed.

Lemma shouldReuseDriver_matcher_throws_witness :
  shouldReuseDriver spec_imports ios_transport healthy_world true
    (cached_state odd_platform_session)
  = (Throw (TypeError_new "toLowerCase is not a function"),
     cached_state odd_platform_session).
Proof.
  apply (shouldReuseDriver_matcher_throws spec_imports ios_transport
           healthy_world (cached_state odd_platform_session) 7
           {| sessionId := "b0a1";
              capabilities := Some odd_platform_session |}
           odd_platform_session);
    reflexivity.
Defined.

(** X9: when the session check succeeds and the cache holds no session
    info, the cache is filled with the session id and the serialized
    capabilities of the session, and the answer is true. *)
Theorem shouldReuseDriver_fills_cache (imp : Imports) (this : Instance)
  (w : World) (st : State) (d : Driver) (session : Session) (sid : string)
  (caps : ExistingCaps) (serialized : option ExistingCaps) :
  _driver st = Some d ->
  _cachedSessionInfo st = None ->
  race_with_timeout (driver_getSession w d) (sessionCheckTimeout imp this)
  = Return session ->
  getId session = Return sid ->
  getCapabilities session = Return caps ->
  serializeCapabilities w caps = Return serialized ->
  let r := fst (shouldReuseDriver imp this w true st) in
  let st' := snd (shouldReuseDriver imp this w true st) in
  r = Return true
  /\ _cachedSessionInfo st'
     = Some {| sessionId := sid; capabilities := serialized |}
  /\ _driver st' = Some d
  /\ trace st'
     = (trace st ++ [EvGetSession d (sessionCheckTimeout imp this);
                     EvSessionGetId; EvSessionGetCapabilities])%list.
Proof.
  intros Hd Hc Hr Hid Hcaps Hser.
  unfold shouldReuseDriver, clearDriverAndCache, fillCache. run_method.
  repeat (cbn; rewrite ?Hd, ?Hc, ?Hr, ?Hid, ?Hcaps, ?Hser).
  repeat split; try assumption.
  now rewrite <- !app_assoc.
Qed.

Lemma shouldReuseDriver_fills_cache_witness :
  let st' := snd (shouldReuseDriver spec_imports ios_transport healthy_world
                    true uncached_state) in
  fst (shouldReuseDriver spec_imports ios_transport healthy_world true
         uncached_state) = Return true
  /\ _cachedSessionInfo st'
     = Some {| sessionId := "b0a1";
               capabilities := Some ios_safari_session |}
  /\ _driver st' = Some 7
  /\ trace st'
     = (trace uncached_state
        ++ [EvGetSession 7 2000%Z; EvSessionGetId;
            EvSessionGetCapabilities])%list.
Proof.
  apply (shouldReuseDriver_fills_cache spec_imports ios_transport
           healthy_world uncached_state 7 sample_session "b0a1"
           ios_safari_session (Some ios_safari_session));
    reflexivity.
Defined.

(** X10: a failure while the cache is filled is dropped: when the session
    check succeeds, the cache holds no session info, and reading the id,
    reading the capabilities or serializing them throws, the answer is
    still true, the driver handle is kept and the cache stays empty. *)
Theorem shouldReuseDriver_fill_failure_dropped (imp : Imports)
  (this : Instance) (w : World) (st : State) (d : Driver)
  (session : Session) (e : ErrorObj) :
  _driver st = Some d ->
  _cachedSessionInfo st = None ->
  race_with_timeout (driver_getSession w d) (sessionCheckTimeout imp this)
  = Return session ->
  getId session = Throw e
  \/ getCapabilities session = Throw e
  \/ (exists caps, getCapabilities session = Return caps
                   /\ serializeCapabilities w caps = Throw e) ->
  let r := fst (shouldReuseDriver imp this w true st) in
  let st' := snd (shouldReuseDriver imp this w true st) in
  r = Return true /\ _cachedSessionInfo st' = None /\ _driver st' = Some d.
Proof.
  intros Hd Hc Hr Hfail.
  unfold shouldReuseDriver, clearDriverAndCache, fillCache. run_method.
  repeat (cbn; rewrite ?Hd, ?Hc, ?Hr).
  destruct Hfail as [H|[H|[caps [H1 H2]]]].
  - rewrite H. cbn. repeat split; assumption.
  - destruct (getId session); cbn; [rewrite H; cbn|];
      repeat split; assumption.
  - destruct (getId session); cbn; [rewrite H1; cbn; rewrite H2; cbn|];
      repeat split; assumption.
Qed.

Lemma shouldReuseDriver_fill_failure_dropped_witness :
  let st' := snd (shouldReuseDriver spec_imports ios_transport
                    unserializable_world true uncached_state) in
  fst (shouldReuseDriver spec_imports ios_transport unserializable_world
         true uncached_state) = Return true
  /\ _cachedSessionInfo st' = None /\ _driver st' = Some 7.
Proof.
  apply (shouldReuseDriver_fill_failure_dropped spec_imports ios_transport
           unserializable_world uncached_state 7 sample_session
           (Error_new "cannot serialize"));
    try reflexivity.
  right. right. exists ios_safari_session. split; reflexivity.
Defined.

Lemma shouldReuseDriver_unrequested (imp : Imports) (this : Instance)
  (w : World) (st : State) :
  shouldReuseDriver imp this w false st = (Return false, st).
Proof. reflexivity. Qed.

Lemma shouldReuseDriver_no_driver (imp : Imports) (this : Instance)
  (w : World) (reuseBrowser : bool) (st : State) :
  _driver st = None ->
  shouldReuseDriver imp this w reuseBrowser st = (Return false, st).
Proof.
  intros H. unfold shouldReuseDriver. run_method. rewrite H.
  now destruct reuseBrowser.
Qed.

Lemma shouldReuseDriver_false_cases (imp : Imports) (this : Instance)
  (w : World) (reuseBrowser : bool) (st : State) :
  fst (shouldReuseDriver imp this w reuseBrowser st) = Return false ->
  (snd (shouldReuseDriver imp this w reuseBrowser st) = st
   /\ (reuseBrowser = false \/ _driver st = None))
  \/ _driver (snd (shouldReuseDriver imp this w reuseBrowser st)) = None.
Proof.
  unfold shouldReuseDriver, clearDriverAndCache, fillCache.
  run_method. split_cases; intros H; try discriminate H;
    try (now right).
  left. split; [reflexivity|].
  destruct reuseBrowser; [right|now left].
  destruct (_driver st); [discriminate|reflexivity].
Qed.

(** X11: a negative answer is final: once [shouldReuseDriver] has answered
    false, asking again in the state it left, with the same argument,
    answers false again without calling anything and without changing the
    state. *)
Theorem shouldReuseDriver_settles (imp : Imports) (this : Instance)
  (w : World) (reuseBrowser : bool) (st : State) :
  fst (shouldReuseDriver imp this w reuseBrowser st) = Return false ->
  let st' := snd (shouldReuseDriver imp this w reuseBrowser st) in
  forall w', shouldReuseDriver imp this w' reuseBrowser st'
             = (Return false, st').
Proof.
  intros H st' w'.
  destruct (shouldReuseDriver_false_cases imp this w reuseBrowser st H)
    as [[Hst [-> | Hd]] | Hd].
  - apply shouldReuseDriver_unrequested.
  - apply shouldReuseDriver_no_driver. subst st'. now rewrite Hst.
  - now apply shouldReuseDriver_no_driver.
Qed.

Lemma shouldReuseDriver_settles_witness :
  let st' := snd (shouldReuseDriver spec_imports ios_transport silent_world
                    true (cached_state ios_safari_session)) in
  shouldReuseDriver spec_imports ios_transport healthy_world true st'
  = (Return false, st').
Proof.
  apply (shouldReuseDriver_settles spec_imports ios_transport silent_world
           true (cached_state ios_safari_session)).
  vm_compute. reflexivity.
Defined.

(** X12: a positive answer is earned: [shouldReuseDriver] answers true only
    when reuse was requested, a driver was cached, that driver answered the
    session check before the timer, and the cached capabilities, when there
    were any, matched the desired ones; the driver handle is then the one
    that was cached. *)
Theorem shouldReuseDriver_true_only_if (imp : Imports) (this : Instance)
  (w : World) (reuseBrowser : bool) (st : State) :
  fst (shouldReuseDriver imp this w reuseBrowser st) = Return true ->
  reuseBrowser = true
  /\ exists d session,
       _driver st = Some d
       /\ _driver (snd (shouldReuseDriver imp this w reuseBrowser st))
          = Some d
       /\ race_with_timeout (driver_getSession w d)
                            (sessionCheckTimeout imp this) = Return session
       /\ forall info caps,
            _cachedSessionInfo st = Some info ->
            capabilities info = Some caps ->
            capabilitiesMatch imp (desiredCapabilities (settings this))
                              (Some caps) = Return true.
Proof.
  unfold shouldReuseDriver, clearDriverAndCache, fillCache.
  run_method. split_cases; intros H; try discriminate H;
    (destruct reuseBrowser; [|discriminate]);
    (split; [reflexivity|]);
    match goal with
    | Hd : _driver st = Some ?d,
      Hr : race_with_timeout _ _ = Return ?s |- _ =>
        exists d, s; repeat split; try assumption
    end;
    intros info caps Hi Hc; try congruence;
    repeat match goal with
           | Hb : negb ?a = false |- _ =>
               is_var a; destruct a; [|discriminate Hb]
           end;
    congruence.
Qed.

Lemma shouldReuseDriver_true_only_if_witness :
  exists d session,
    _driver (cached_state ios_safari_session) = Some d
    /\ _driver (snd (shouldReuseDriver spec_imports ios_transport
                       healthy_world true
                       (cached_state ios_safari_session))) = Some d
    /\ race_with_timeout (driver_getSession healthy_world d)
                         (sessionCheckTimeout spec_imports ios_transport)
       = Return session
    /\ forall info caps,
         _cachedSessionInfo (cached_state ios_safari_session) = Some info ->
         capabilities info = Some caps ->
         capabilitiesMatch spec_imports
           (desiredCapabilities (settings ios_transport)) (Some caps)
         = Return true.
Proof.
  apply (shouldReuseDriver_true_only_if spec_imports ios_transport
           healthy_world true (cached_state ios_safari_session)).
  vm_compute. reflexivity.
Defined.

(** X13: an answer that comes too late counts as none: when the cached
    driver never settles the session check, or fulfils it only after the
    timeout, [shouldReuseDriver] answers false and empties both the
    driver-handle slot and the cached-session-info slot.  The session check
    being started before the timer, an answer that comes no later than the
    timeout is in time: with matching cached capabilities the verdict is
    then true and both slots are kept. *)
Theorem shouldReuseDriver_late_answer (imp : Imports) (this : Instance)
  (w : World) (st : State) (d : Driver) :
  _driver st = Some d ->
  (forall info caps,
      _cachedSessionInfo st = Some info -> capabilities info = Some caps ->
      capabilitiesMatch imp (desiredCapabilities (settings this)) (Some caps)
      = Return true) ->
  (driver_getSession w d = Pending
   \/ (exists ms session,
          driver_getSession w d = Fulfilled ms session
          /\ (sessionCheckTimeout imp this < ms)%Z) ->
   shouldReuseDriver imp this w true st
   = (Return false,
      cleared (log_event (EvGetSession d (sessionCheckTimeout imp this)) st)))
  /\ (forall ms session info caps,
         driver_getSession w d = Fulfilled ms session ->
         (ms <= sessionCheckTimeout imp this)%Z ->
         _cachedSessionInfo st = Some info ->
         capabilities info = Some caps ->
         shouldReuseDriver imp this w true st
         = (Return true,
            log_event (EvGetSession d (sessionCheckTimeout imp this)) st)).
Proof.
  intros Hd Hm. split.
  - intros Hlate.
    apply (shouldReuseDriver_on_dead imp this w st d
             (Error_new "Session check timeout") Hd Hm).
    unfold race_with_timeout.
    destruct Hlate as [-> | [ms [session [-> Hms]]]]; [reflexivity|].
    apply Z.leb_gt in Hms. now rewrite Hms.
  - intros ms session info caps Hs Hms Hc Hcaps.
    apply (shouldReuseDriver_on_healthy imp this w st d info caps session
             Hd Hc Hcaps (Hm info caps Hc Hcaps)).
    unfold race_with_timeout. rewrite Hs.
    apply Z.leb_le in Hms. now rewrite Hms.
Qed.

Lemma shouldReuseDriver_late_answer_witness :
  shouldReuseDriver spec_imports ios_transport silent_world true
    (cached_state ios_safari_session)
  = (Return false,
     cleared (log_event (EvGetSession 7 2000%Z)
                (cached_state ios_safari_session))).
Proof.
  assert (Hm : forall info caps,
             _cachedSessionInfo (cached_state ios_safari_session)
             = Some info ->
             capabilities info = Some caps ->
             capabilitiesMatch spec_imports
               (desiredCapabilities (settings ios_transport)) (Some caps)
             = Return true).
  { intros info caps Hi Hc. vm_compute in Hi. injection Hi as <-.
    vm_compute in Hc. injection Hc as <-. vm_compute. reflexivity. }
  apply (proj1 (shouldReuseDriver_late_answer spec_imports ios_transport
                  silent_world (cached_state ios_safari_session) 7
                  eq_refl Hm)).
  left. reflexivity.
Defined.

(** ** Building a driver *)

Lemma shouldReuseDriver_again (imp : Imports) (this : Instance) (w : World)
  (reuseBrowser : bool) (st st1 : State) :
  shouldReuseDriver imp this w reuseBrowser st = (Return false, st1) ->
  shouldReuseDriver imp this w reuseBrowser st1 = (Return false, st1).
Proof.
  intros E.
  pose proof (shouldReuseDriver_false_cases imp this w reuseBrowser st) as H.
  rewrite E in H. cbn [fst snd] in H.
  destruct (H eq_refl) as [[-> [-> | Hd]] | Hd].
  - apply shouldReuseDriver_unrequested.
  - now apply shouldReuseDriver_no_driver.
  - now apply shouldReuseDriver_no_driver.
Qed.

Lemma getDriver_builds (imp : Imports) (this : Instance) (w : World)
  (options : Options) (reuseBrowser : bool) (st st1 : State) :
  shouldReuseDriver imp this w reuseBrowser st = (Return false, st1) ->
  getDriver imp this w options reuseBrowser st
  = match builder_build w options with
    | Return d1 =>
        (Return (Some d1),
         set_T_driver (Some d1) (log_event (EvBuild options) st1))
    | Throw e => (Throw e, log_event (EvBuild options) st1)
    end.
Proof.
  intros E. unfold getDriver, createDriver. run_method. rewrite E. cbn.
  now destruct (builder_build w options).
Qed.

(** X14: without a request for reuse, [getDriver] always builds: the cached
    driver is not asked anything, a driver that was built takes its place in
    the driver-handle slot and is the one returned, and the cached session
    info is left as it was; when the build fails, the error is thrown and
    the slot keeps what it held. *)
Theorem getDriver_without_reuse (imp : Imports) (this : Instance)
  (w : World) (options : Options) (st : State) :
  (forall d1,
      builder_build w options = Return d1 ->
      getDriver imp this w options false st
      = (Return (Some d1),
         set_T_driver (Some d1) (log_event (EvBuild options) st)))
  /\ (forall e,
         builder_build w options = Throw e ->
         getDriver imp this w options false st
         = (Throw e, log_event (EvBuild options) st)).
Proof.
  split; intros x H;
    rewrite (getDriver_builds imp this w options false st st
               (shouldReuseDriver_unrequested imp this w st));
    now rewrite H.
Qed.

Lemma getDriver_without_reuse_witness :
  getDriver spec_imports ios_transport healthy_world 0 false
    (cached_state ios_safari_session)
  = (Return (Some 9),
     set_T_driver (Some 9)
       (log_event (EvBuild 0) (cached_state ios_safari_session))).
Proof.
  apply (proj1 (getDriver_without_reuse spec_imports ios_transport
                  healthy_world 0 (cached_state ios_safari_session))).
  reflexivity.
Defined.

(** ** One connect, call by call *)

Arguments count_events : simpl never.

Lemma count_events_app (kind : Event -> bool) (a b : list Event) :
  count_events kind (a ++ b) = count_events kind a + count_events kind b.
Proof. unfold count_events. now rewrite filter_app, length_app. Qed.

Lemma count_events_cons (kind : Event -> bool) (ev : Event)
  (evs : list Event) :
  count_events kind (ev :: evs)
  = (if kind ev then 1 else 0) + count_events kind evs.
Proof. unfold count_events. cbn. now destruct (kind ev). Qed.

Lemma count_events_nil (kind : Event -> bool) : count_events kind [] = 0.
Proof. reflexivity. Qed.

Ltac count_up :=
  rewrite ?count_events_app, ?count_events_cons, ?count_events_nil;
  cbn [is_probe is_build is_export]; lia.

Lemma count_events_not_remote (kind : Event -> bool) (evs : list Event) :
  (forall ev, kind ev = true -> is_remote_call ev = true) ->
  existsb is_remote_call evs = false ->
  count_events kind evs = 0.
Proof.
  intros Hk. unfold count_events.
  induction evs as [|ev evs IH]; [reflexivity|].
  cbn. intros H. apply orb_false_iff in H as [Hev Hevs].
  destruct (kind ev) eqn:E; [|now apply IH].
  rewrite (Hk ev E) in Hev. discriminate Hev.
Qed.

Lemma shouldReuseDriver_counts (imp : Imports) (this : Instance) (w : World)
  (reuseBrowser : bool) (st : State) :
  exists evs,
    trace (snd (shouldReuseDriver imp this w reuseBrowser st))
    = (trace st ++ evs)%list
    /\ count_events is_probe evs <= 1
    /\ count_events is_build evs = 0
    /\ count_events is_export evs = 0.
Proof.
  unfold shouldReuseDriver, clearDriverAndCache, fillCache.
  run_method. split_cases;
    rewrite <- ?app_assoc; cbn [app];
    first [ exists []; split; [now rewrite app_nil_r|]
          | eexists; split; [reflexivity|] ];
    unfold count_events; cbn; repeat split; lia.
Qed.

Lemma connect_counts (imp : Imports) (this : Instance) (w : World)
  (options : Options) (reuseBrowser : bool) (st : State) :
  exists evs,
    trace (snd (connect imp this w options reuseBrowser st))
    = (trace st ++ evs)%list
    /\ count_events is_probe evs <= 1
       /\ count_events is_build evs <= 1
       /\ count_events is_export evs <= 1.
Proof.
  unfold connect, showConnectInfo. run_method.
  destruct (shouldReuseDriver_counts imp this w reuseBrowser st)
    as [evs1 [Ht [Hp [Hb He]]]].
  destruct (shouldReuseDriver imp this w reuseBrowser st) as [r st1] eqn:E.
  cbn [fst snd] in Ht.
  destruct r as [[|]|e].
  - cbn. split_cases; cbn; rewrite ?Ht, <- ?app_assoc;
      (eexists; split; [reflexivity|]);
      count_up.
  - rewrite (getDriver_builds imp this w options reuseBrowser st1 st1
               (shouldReuseDriver_again imp this w reuseBrowser st st1 E)).
    destruct (builder_build w options) as [d1|e1]; cbn.
    + split_cases; cbn; rewrite ?Ht, <- ?app_assoc;
        (eexists; split; [reflexivity|]);
        count_up.
    + rewrite Ht, <- app_assoc. eexists; split; [reflexivity|].
      count_up.
  - cbn. exists evs1. repeat split; try assumption; lia.
Qed.

(** X15: one call of [createSession] asks the cached driver for its session
    at most once, builds at most one driver and exports at most one session,
    however it ends; in particular the second reuse check, made inside
    [getDriver], never asks the driver again. *)
Theorem createSession_calls_once (imp : Imports) (this : Instance)
  (w : World) (argv : Argv) (moduleKey : option string)
  (reuseBrowser : bool) (st : State) :
  exists evs,
    trace (snd (createSession imp this w argv moduleKey reuseBrowser st))
    = (trace st ++ evs)%list
    /\ count_events is_probe evs <= 1
    /\ count_events is_build evs <= 1
    /\ count_events is_export evs <= 1.
Proof.
  unfold createSession.
  destruct (prepare_slots this w argv moduleKey reuseBrowser st)
    as [_ [_ [evs0 [Ht0 Hr0]]]].
  destruct (prepare this w argv moduleKey reuseBrowser st) as [r st1].
  cbn [fst snd] in Ht0.
  assert (Hp0 : count_events is_probe evs0 = 0)
    by (apply count_events_not_remote; [now intros []|exact Hr0]).
  assert (Hb0 : count_events is_build evs0 = 0)
    by (apply count_events_not_remote; [now intros []|exact Hr0]).
  assert (He0 : count_events is_export evs0 = 0)
    by (apply count_events_not_remote; [now intros []|exact Hr0]).
  destruct r as [options|e]; cbn.
  - destruct (connect_counts imp this w options reuseBrowser st1)
      as [evs [Ht [Hp [Hb He]]]].
    destruct (connect imp this w options reuseBrowser st1) as [r2 st2].
    cbn [fst snd] in Ht.
    exists (evs0 ++ evs)%list. split.
    + destruct r2; cbn; now rewrite Ht, Ht0, app_assoc.
    + rewrite !count_events_app. lia.
  - exists evs0. repeat split; try assumption; lia.
Qed.

(** X16: what fails before the [try] block of [createSession] is thrown as
    it is, without classification.  When the session options cannot be
    created, that error is thrown and nothing else has happened; when the
    driver service has to be started and its start fails, that error is
    thrown, the new service already sits in the static driver-service slot,
    the instance keeps the service it had, and the driver handle and the
    cached session info are untouched. *)
Theorem createSession_early_failure (imp : Imports) (this : Instance)
  (w : World) (argv : Argv) (moduleKey : option string)
  (reuseBrowser : bool) (st : State) :
  (forall e,
      createSessionOptions w argv = Throw e ->
      createSession imp this w argv moduleKey reuseBrowser st
      = (Throw (Plain e), log_event (EvCreateSessionOptions argv) st))
  /\ (forall options e,
         createSessionOptions w argv = Return options ->
         start_process (webdriver (settings this)) = true ->
         shouldReuseDriverService w reuseBrowser st = false ->
         (forall file,
             service_init w (ServiceBuilder_new w) file options = Throw e) ->
         let st' := snd (createSession imp this w argv moduleKey
                           reuseBrowser st) in
         fst (createSession imp this w argv moduleKey reuseBrowser st)
         = Throw (Plain e)
         /\ _driverService st' = Some (ServiceBuilder_new w)
         /\ this_driverService st' = this_driverService st
         /\ _driver st' = _driver st
         /\ _cachedSessionInfo st' = _cachedSessionInfo st).
Proof.
  split.
  - intros e H. unfold createSession, prepare. run_method. cbn.
    now rewrite H.
  - intros options e Ho Hs Hr Hi.
    unfold createSession, prepare, createDriverService. run_method. cbn.
    rewrite Ho, Hs. cbn.
    change (shouldReuseDriverService w reuseBrowser
              (log_event (EvCreateSessionOptions argv) st))
      with (shouldReuseDriverService w reuseBrowser st).
    rewrite Hr. cbn. rewrite Hi. cbn. repeat split.
Qed.

Lemma createSession_early_failure_witness :
  createSession spec_imports chrome_transport optionless_world 0 None true
    initial_state
  = (Throw (Plain (Error_new "unknown browser")),
     log_event (EvCreateSessionOptions 0) initial_state)
  /\ _driverService
       (snd (createSession spec_imports managed_transport
               broken_service_world 0 None true initial_state))
     = Some sample_service.
Proof.
  split.
  - apply (proj1 (createSession_early_failure spec_imports chrome_transport
                    optionless_world 0 None true initial_state)).
    reflexivity.
  - apply (proj2 (createSession_early_failure spec_imports managed_transport
                    broken_service_world 0 None true initial_state)
             0 (Error_new "spawn ENOENT"));
      reflexivity.
Defined.

Lemma getDriver_returned (imp : Imports) (this : Instance) (w : World)
  (options : Options) (reuseBrowser : bool) (st : State) (x : option Driver) :
  fst (getDriver imp this w options reuseBrowser st) = Return x ->
  x = _driver (snd (getDriver imp this w options reuseBrowser st))
  /\ isSome x = true.
Proof.
  unfold getDriver, createDriver. run_method.
  pose proof (shouldReuseDriver_post imp this w reuseBrowser st) as P.
  cbv zeta in P.
  destruct (shouldReuseDriver imp this w reuseBrowser st) as [r st1].
  cbn [fst snd] in P. destruct P as (_ & _ & _ & Ptrue & _).
  destruct r as [[|]|e]; cbn.
  - intros H. injection H as <-. split; [reflexivity|now apply Ptrue].
  - destruct (builder_build w options); cbn; intros H;
      [injection H as <-; now split|discriminate H].
  - discriminate.
Qed.

(** X17: when [createSession] returns, the driver-handle slot and the
    instance hold the same driver, the result is what the export of that
    driver's session gave, with the host and port of the settings, the
    element key of the instance is the exported one, and the cached session
    info is the exported id and capabilities whenever the export has both. *)
Theorem createSession_on_return (imp : Imports) (this : Instance)
  (w : World) (argv : Argv) (moduleKey : option string)
  (reuseBrowser : bool) (st : State) (r : SessionResult) :
  fst (createSession imp this w argv moduleKey reuseBrowser st) = Return r ->
  let st' := snd (createSession imp this w argv moduleKey reuseBrowser st) in
  exists d exports,
    _driver st' = Some d
    /\ this_driver st' = Some d
    /\ session_exported w (Some d) = Return exports
    /\ r = {| res_sessionId := exp_sessionId exports;
              res_capabilities := exp_capabilities exports;
              res_host := host (webdriver (settings this));
              res_port := port (webdriver (settings this)) |}
    /\ this_elementKey st' = exp_elementKey exports
    /\ forall sid caps,
         exp_sessionId exports = Some sid -> nonempty sid = true ->
         exp_capabilities exports = Some caps ->
         _cachedSessionInfo st'
         = Some {| sessionId := sid; capabilities := Some caps |}.
Proof.
  unfold createSession.
  destruct (prepare this w argv moduleKey reuseBrowser st) as [ro st1].
  destruct ro as [options|e]; [|discriminate].
  unfold connect, showConnectInfo. run_method.
  pose proof (shouldReuseDriver_post imp this w reuseBrowser st1) as P.
  cbv zeta in P.
  destruct (shouldReuseDriver imp this w reuseBrowser st1) as [r1 st2].
  cbn [fst snd] in P. destruct P as (_ & _ & _ & Ptrue & _).
  destruct r1 as [[|]|e1]; cbn.
  - specialize (Ptrue eq_refl).
    destruct (_driver st2) as [d|] eqn:Ed; [|discriminate Ptrue].
    cbn. split_cases; intros H; try discriminate H;
      injection H as <-;
      match goal with
      | Hx : session_exported w (Some d) = Return ?a |- _ => exists d, a
      end;
      repeat split; try assumption; try reflexivity; try congruence;
      intros sid caps H1 H2 H3; congruence.
  - pose proof (getDriver_returned imp this w options reuseBrowser st2) as G.
    destruct (getDriver imp this w options reuseBrowser st2) as [r2 st3].
    cbn [fst snd] in G.
    destruct r2 as [x|e2]; [|discriminate].
    destruct (G x eq_refl) as [-> Gs].
    destruct (_driver st3) as [d|] eqn:Ed; [|discriminate Gs].
    cbn. split_cases; intros H; try discriminate H;
      injection H as <-;
      match goal with
      | Hx : session_exported w (Some d) = Return ?a |- _ => exists d, a
      end;
      repeat split; try assumption; try reflexivity; try congruence;
      intros sid caps H1 H2 H3; congruence.
  - discriminate.
Qed.

Lemma createSession_on_return_witness :
  exists d exports,
    _driver (snd (createSession spec_imports ios_transport healthy_world
                    0 None false initial_state)) = Some d
    /\ this_driver (snd (createSession spec_imports ios_transport
                           healthy_world 0 None false initial_state))
       = Some d
    /\ session_exported healthy_world (Some d) = Return exports
    /\ {| res_sessionId := Some "b0a1";
          res_capabilities := Some ios_safari_session;
          res_host := "localhost";
          res_port := Some 4444%N |}
       = {| res_sessionId := exp_sessionId exports;
            res_capabilities := exp_capabilities exports;
            res_host := host (webdriver (settings ios_transport));
            res_port := port (webdriver (settings ios_transport)) |}
    /\ this_elementKey (snd (createSession spec_imports ios_transport
                               healthy_world 0 None false initial_state))
       = exp_elementKey exports
    /\ forall sid caps,
         exp_sessionId exports = Some sid -> nonempty sid = true ->
         exp_capabilities exports = Some caps ->
         _cachedSessionInfo
           (snd (createSession spec_imports ios_transport healthy_world
                   0 None false initial_state))
         = Some {| sessionId := sid; capabilities := Some caps |}.
Proof.
  apply (createSession_on_return spec_imports ios_transport healthy_world
           0 None false initial_state).
  vm_compute. reflexivity.
Defined.

(** X18: a dead cached driver costs one fresh negotiation.  With reuse
    requested, a cached driver whose session check fails or times out, a
    build that succeeds and an export that succeeds, [createSession]
    returns the session of the new driver; the new driver is in the
    driver-handle slot, and the calls to the remote end are, in order, the
    session check on the old driver, one build, and the export of the new
    driver's session. *)
Theorem createSession_renegotiates (imp : Imports) (this : Instance)
  (w : World) (argv : Argv) (moduleKey : option string) (st st1 : State)
  (options : Options) (d d1 : Driver) (e : ErrorObj)
  (exports : SessionExports) :
  prepare this w argv moduleKey true st = (Return options, st1) ->
  _driver st = Some d ->
  (forall info caps,
      _cachedSessionInfo st = Some info -> capabilities info = Some caps ->
      capabilitiesMatch imp (desiredCapabilities (settings this)) (Some caps)
      = Return true) ->
  race_with_timeout (driver_getSession w d) (sessionCheckTimeout imp this)
  = Throw e ->
  builder_build w options = Return d1 ->
  session_exported w (Some d1) = Return exports ->
  displayable this (exp_sessionInfo exports) = true ->
  let r := fst (createSession imp this w argv moduleKey true st) in
  let st' := snd (createSession imp this w argv moduleKey true st) in
  r = Return {| res_sessionId := exp_sessionId exports;
                res_capabilities := exp_capabilities exports;
                res_host := host (webdriver (settings this));
                res_port := port (webdriver (settings this)) |}
  /\ _driver st' = Some d1
  /\ this_driver st' = Some d1
  /\ exists before,
       trace st'
       = (trace st ++ before
          ++ [EvGetSession d (sessionCheckTimeout imp this);
              EvBuild options;
              EvSessionExported (Some d1)])%list
       /\ existsb is_remote_call before = false.
Proof.
  intros Hprep Hd Hm Hr Hb Hexp Hshow.
  pose proof (prepare_slots this w argv moduleKey true st) as P.
  cbv zeta in P. rewrite Hprep in P. cbn [fst snd] in P.
  destruct P as [P1 [P2 [before [P3 P4]]]].
  rewrite Hd in P1.
  assert (Hm1 : forall info caps,
             _cachedSessionInfo st1 = Some info ->
             capabilities info = Some caps ->
             capabilitiesMatch imp (desiredCapabilities (settings this))
                               (Some caps) = Return true)
    by (intros info caps; rewrite P2; apply Hm).
  pose proof (shouldReuseDriver_on_dead imp this w st1 d e P1 Hm1 Hr) as E.
  cbv zeta. unfold createSession. rewrite Hprep.
  unfold connect. run_method. rewrite E.
  rewrite (getDriver_builds imp this w options true _ _
             (shouldReuseDriver_again imp this w true st1 _ E)).
  rewrite Hb. cbn. rewrite Hexp. cbn.
  unfold showConnectInfo, outputEnabled, displayable in *. run_method.
  assert (Htrace : forall X : list Event,
             X = (((trace st1
                    ++ [EvGetSession d (sessionCheckTimeout imp this)])
                   ++ [EvBuild options])
                  ++ [EvSessionExported (Some d1)])%list ->
             X = (trace st ++ before
                  ++ [EvGetSession d (sessionCheckTimeout imp this);
                      EvBuild options;
                      EvSessionExported (Some d1)])%list).
  { intros X ->. rewrite P3. now rewrite <- !app_assoc. }
  destruct (output (settings this)); cbn in Hshow;
    [destruct (exp_sessionInfo exports) as [i|]; [|discriminate Hshow];
     destruct (appId i); [|discriminate Hshow];
     destruct (platform i); [|discriminate Hshow]|];
    destruct (exp_sessionId exports) as [sid|];
    destruct (exp_capabilities exports) as [c|];
    try destruct (nonempty sid);
    cbn;
    (split; [reflexivity|]); (split; [reflexivity|]);
    (split; [reflexivity|]);
    exists before; (split; [|assumption]);
    apply Htrace; reflexivity.
Qed.

Lemma createSession_renegotiates_witness :
  let st := cached_state ios_safari_session in
  let st' := snd (createSession spec_imports ios_transport silent_world
                    0 None true st) in
  fst (createSession spec_imports ios_transport silent_world 0 None true st)
  = Return {| res_sessionId := Some "b0a1";
              res_capabilities := Some ios_safari_session;
              res_host := "localhost";
              res_port := Some 4444%N |}
  /\ _driver st' = Some 9
  /\ this_driver st' = Some 9
  /\ exists before,
       trace st'
       = (trace st ++ before
          ++ [EvGetSession 7 2000%Z; EvBuild 0;
              EvSessionExported (Some 9)])%list
       /\ existsb is_remote_call before = false.
Proof.
  apply (createSession_renegotiates spec_imports ios_transport silent_world
           0 None (cached_state ios_safari_session)
           (log_event (EvCreateSessionOptions 0)
              (cached_state ios_safari_session))
           0 7 9 (Error_new "Session check timeout") sample_exports);
    try reflexivity.
  intros info caps Hi Hc. vm_compute in Hi. injection Hi as <-.
  vm_compute in Hc. injection Hc as <-. vm_compute. reflexivity.
Defined.

(** X19: what fails inside the [try] block of [createSession] is thrown
    classified: when the steps before the block succeed and
    [createSession] throws, the message written onto the error starts with
    the generic prefix that names the driver service. *)
Theorem createSession_failure_classified (imp : Imports) (this : Instance)
  (w : World) (argv : Argv) (moduleKey : option string)
  (reuseBrowser : bool) (st : State) (options : Options) (t : Thrown) :
  fst (prepare this w argv moduleKey reuseBrowser st) = Return options ->
  fst (createSession imp this w argv moduleKey reuseBrowser st) = Throw t ->
  String.prefix (connect_error_prefix this) (message (decorated t)) = true.
Proof.
  unfold createSession.
  destruct (prepare this w argv moduleKey reuseBrowser st) as [ro st1].
  cbn [fst]. intros ->.
  destruct (connect imp this w options reuseBrowser st1) as [r2 st2].
  destruct r2 as [r|err]; cbn; [discriminate|].
  intros H. injection H as <-.
  rewrite decorated_message. unfold connect_error_prefix.
  destruct (code_is err "ECONNREFUSED"); apply prefix_append.
Qed.

Lemma createSession_failure_classified_witness :
  String.prefix "An error occurred while creating a new ChromeDriver session:"
    (message
       (decorated
          (handleConnectError spec_imports chrome_transport None
             refused_error "localhost" (Some 4444%N)))) = true.
Proof.
  apply (createSession_failure_classified spec_imports chrome_transport
           refusing_world 0 None true initial_state 0
           (handleConnectError spec_imports chrome_transport None
              refused_error "localhost" (Some 4444%N)));
    vm_compute; reflexivity.
Defined.

(** ** The driver service *)

(** X20: [sessionFinished] empties the cached session info and leaves the
    driver handle and the static driver-service slot alone, however it
    ends.  Without a service on the instance nothing is stopped; when the
    stop succeeds the instance loses its service and is marked stopped; when
    the stop fails the error is thrown marked as displayed and the instance
    keeps its service. *)
Theorem sessionFinished_outcomes (w : World) (reason : string) (st : State) :
  let r := fst (sessionFinished w reason st) in
  let st' := snd (sessionFinished w reason st) in
  (_driver st' = _driver st /\ _driverService st' = _driverService st
   /\ _cachedSessionInfo st' = None)
  /\ (this_driverService st = None ->
      r = Return tt
      /\ trace st' = (trace st ++ [EvEmit "session:finished"])%list
      /\ this_stopped st' = this_stopped st)
  /\ (forall s,
         this_driverService st = Some s -> service_stop w s = Return tt ->
         r = Return tt /\ this_driverService st' = None
         /\ this_stopped st' = true
         /\ trace st'
            = (trace st ++ [EvEmit "session:finished"; EvServiceStop s])%list)
  /\ (forall s e,
         this_driverService st = Some s -> service_stop w s = Throw e ->
         r = Throw (set_displayed e true)
         /\ this_driverService st' = Some s
         /\ this_stopped st' = this_stopped st).
Proof.
  unfold sessionFinished, closeDriver. run_method. cbn.
  split; [|split; [|split]].
  - destruct (this_driverService st) as [s|]; cbn; [|repeat split].
    destruct (service_stop w s); cbn; repeat split.
  - intros H. rewrite H. cbn. repeat split.
  - intros s H1 H2. rewrite H1. cbn. rewrite H2. cbn. repeat split.
    now rewrite <- app_assoc.
  - intros s e H1 H2. rewrite H1. cbn. rewrite H2. cbn.
    repeat split; assumption.
Qed.

Lemma sessionFinished_outcomes_witness :
  fst (sessionFinished broken_service_world "done" serviced_state)
  = Throw (set_displayed (Error_new "kill EPERM") true)
  /\ this_driverService
       (snd (sessionFinished broken_service_world "done" serviced_state))
     = Some sample_service
  /\ this_stopped
       (snd (sessionFinished broken_service_world "done" serviced_state))
     = this_stopped serviced_state.
Proof.
  apply (proj2 (proj2 (proj2
           (sessionFinished_outcomes broken_service_world "done"
              serviced_state)))
           sample_service (Error_new "kill EPERM"));
    reflexivity.
Defined.

(** X21: [createDriverService] starts a service only when none can be
    reused.  With reuse requested and a static service that is not stopped,
    nothing is started and the instance takes the static service; otherwise
    a new service is put in the static slot and started, writing to the file
    [test] when reuse is requested.  Whenever it returns, the instance holds
    the service of the static slot, and there is one. *)
Theorem createDriverService_outcomes (this : Instance) (w : World)
  (options : Options) (moduleKey : option string) (reuseBrowser : bool)
  (st : State) :
  let r := fst (createDriverService this w options moduleKey reuseBrowser st) in
  let st' := snd (createDriverService this w options moduleKey reuseBrowser st) in
  (shouldReuseDriverService w reuseBrowser st = true ->
   r = Return tt
   /\ st' = set_this_driverService (_driverService st) st)
  /\ (shouldReuseDriverService w reuseBrowser st = false ->
      _driverService st' = Some (ServiceBuilder_new w)
      /\ exists file,
           trace st'
           = (trace st ++ [EvServiceInit (ServiceBuilder_new w) file options])%list
           /\ (reuseBrowser = true -> file = "test"))
  /\ (r = Return tt ->
      this_driverService st' = _driverService st'
      /\ isSome (_driverService st') = true).
Proof.
  unfold createDriverService. run_method. cbn.
  destruct (shouldReuseDriverService w reuseBrowser st) eqn:E; cbn.
  - split; [|split]; [intros _; split; reflexivity|discriminate|].
    intros _. split; [reflexivity|].
    unfold shouldReuseDriverService in E.
    now destruct (_driverService st).
  - split; [discriminate|].
    destruct (service_init w (ServiceBuilder_new w) _ options) eqn:Ei; cbn;
      (split; [intros _; split; [reflexivity|]|]);
      try (eexists; split; [reflexivity|];
           intros ->; reflexivity);
      try discriminate.
    intros _. split; reflexivity.
Qed.

Lemma createDriverService_outcomes_witness :
  fst (createDriverService managed_transport healthy_world 0 None true
         serviced_state) = Return tt
  /\ snd (createDriverService managed_transport healthy_world 0 None true
            serviced_state)
     = set_this_driverService (_driverService serviced_state) serviced_state.
Proof.
  apply (proj1 (createDriverService_outcomes managed_transport healthy_world
                  0 None true serviced_state)).
  reflexivity.
Defined.

(** ** Connect errors, continued *)

Lemma decorated_connect_message (imp : Imports) (this : Instance)
  (ds : option Service) (err : ErrorObj) (h : string) (p : option N) :
  message (decorated (handleConnectError imp this ds err h p))
  = connect_message this err h p.
Proof.
  rewrite decorated_message. unfold connect_message, connect_error_prefix.
  reflexivity.
Qed.

(** X22: without an active driver service, or when the error already
    carries detail, [handleConnectError] attaches nothing and never
    re-wraps: it returns the input error itself, with the detail it had. *)
Theorem handleConnectError_no_detail (imp : Imports) (this : Instance)
  (ds : option Service) (err : ErrorObj) (h : string) (p : option N) :
  ds = None \/ present (detailedErr err) = true ->
  exists e,
    handleConnectError imp this ds err h p = Plain e
    /\ detailedErr e = detailedErr err
    /\ extraDetail e = extraDetail err.
Proof.
  intros H. unfold handleConnectError.
  destruct (code_is err "ECONNREFUSED");
    (destruct ds as [svc|];
     [destruct H as [H|H]; [discriminate H|];
      cbn -[append includes]; rewrite H; cbn -[append includes]
     |cbn -[append includes]]);
    eexists; repeat split.
Qed.

Lemma handleConnectError_no_detail_witness :
  exists e,
    handleConnectError spec_imports chrome_transport None adb_error
      "localhost" (Some 4444%N) = Plain e
    /\ detailedErr e = detailedErr adb_error
    /\ extraDetail e = extraDetail adb_error.
Proof.
  apply (handleConnectError_no_detail spec_imports chrome_transport None
           adb_error "localhost" (Some 4444%N)).
  now left.
Defined.

(** X23: [handleConnectError] keeps the identity of the error: the error it
    decorates has the class, the name, the code and the [displayed] mark of
    the input, and [sessionCreate] is set, to true, exactly on the
    connection-refused code. *)
Theorem handleConnectError_keeps_identity (imp : Imports) (this : Instance)
  (ds : option Service) (err : ErrorObj) (h : string) (p : option N) :
  let e := decorated (handleConnectError imp this ds err h p) in
  cls e = cls err /\ name e = name err /\ code e = code err
  /\ displayed e = displayed err
  /\ sessionCreate e
     = (if code_is err "ECONNREFUSED" then Some true else sessionCreate err).
Proof.
  unfold handleConnectError.
  destruct (code_is err "ECONNREFUSED"); destruct ds as [svc|];
    cbn -[append includes]; try (repeat split; reflexivity);
    destruct (present (detailedErr err)); cbn -[append includes];
    try (repeat split; reflexivity);
    repeat match goal with
           | |- context [if ?c then _ else _] => destruct c
           end; cbn; repeat split; reflexivity.
Qed.

Lemma handleConnectError_cases (imp : Imports) (this : Instance)
  (ds : option Service) (err : ErrorObj) (h : string) (p : option N) :
  let msg := connect_message this err h p in
  let eligible := isSome ds && negb (present (detailedErr err)) in
  let ios := IosSessionErrors imp (name err) && api_isSafari this
             && api_isIOS this in
  (eligible = false ->
   exists e, handleConnectError imp this ds err h p = Plain e)
  /\ (eligible = true -> android_pattern msg = true ->
      exists e, handleConnectError imp this ds err h p
                = AndroidConnectionError e)
  /\ (eligible = true -> android_pattern msg = false -> ios = true ->
      exists e, handleConnectError imp this ds err h p
                = IosSessionNotCreatedError e
                    (desiredCapabilities (settings this)))
  /\ (eligible = true -> android_pattern msg = false -> ios = false ->
      exists e, handleConnectError imp this ds err h p = Plain e).
Proof.
  cbv zeta.
  unfold handleConnectError, android_pattern, connect_message,
    connect_error_prefix.
  destruct ds as [svc|]; cbn -[append includes];
    [|repeat split; intros; try discriminate; eexists; reflexivity].
  destruct (code_is err "ECONNREFUSED"); cbn -[append includes];
    (destruct (present (detailedErr err)); cbn -[append includes];
     [repeat split; intros; try discriminate; eexists; reflexivity|]);
    (split; [discriminate|]);
    (split; [intros _ Ha; rewrite Ha; eexists; reflexivity|]);
    (split; intros _ Ha Hi; rewrite Ha, Hi; eexists; reflexivity).
Qed.

(** X24: the dedicated errors are chosen from the rewritten message: with
    an active driver service and no detail on the input, the result is the
    Android error exactly when the message that was written names a failed
    device-bridge command or no device online, and the iOS error exactly
    when it does not and the error name is a known iOS session error on
    Safari on iOS; the Android test comes first.  Without a service, or
    with detail on the input, neither is ever returned. *)
Theorem handleConnectError_rewraps_iff (imp : Imports) (this : Instance)
  (ds : option Service) (err : ErrorObj) (h : string) (p : option N) :
  let msg := connect_message this err h p in
  let eligible := isSome ds && negb (present (detailedErr err)) in
  ((exists e, handleConnectError imp this ds err h p
              = AndroidConnectionError e)
   <-> eligible && android_pattern msg = true)
  /\ ((exists e caps, handleConnectError imp this ds err h p
                      = IosSessionNotCreatedError e caps)
      <-> eligible && negb (android_pattern msg)
          && (IosSessionErrors imp (name err) && api_isSafari this
              && api_isIOS this) = true).
Proof.
  cbv zeta.
  destruct (handleConnectError_cases imp this ds err h p)
    as [C1 [C2 [C3 C4]]]. cbv zeta in *.
  destruct (isSome ds && negb (present (detailedErr err))).
  - destruct (android_pattern (connect_message this err h p)).
    + destruct (C2 eq_refl eq_refl) as [e ->].
      split; split; try discriminate; intros H;
        [reflexivity|now exists e|destruct H as [? [? H]]; discriminate H].
    + destruct (IosSessionErrors imp (name err) && api_isSafari this
                && api_isIOS this).
      * destruct (C3 eq_refl eq_refl eq_refl) as [e ->].
        split; split; try discriminate; intros H;
          [destruct H as [? H]; discriminate H|reflexivity
          |now exists e, (desiredCapabilities (settings this))].
      * destruct (C4 eq_refl eq_refl eq_refl) as [e ->].
        split; split; try discriminate; intros H;
          [destruct H as [? H]|destruct H as [? [? H]]]; discriminate H.
  - destruct (C1 eq_refl) as [e ->].
    split; split; try discriminate; intros H;
      [destruct H as [? H]|destruct H as [? [? H]]]; discriminate H.
Qed.

Lemma handleConnectError_rewraps_iff_witness :
  (exists e, handleConnectError spec_imports chrome_transport
               (Some sample_service) adb_error "localhost" (Some 4444%N)
             = AndroidConnectionError e)
  /\ ~ (exists e, handleConnectError spec_imports chrome_transport
                    (Some sample_service) refused_adb_error "localhost"
                    (Some 4444%N)
                  = AndroidConnectionError e).
Proof.
  split.
  - apply (proj2 (proj1 (handleConnectError_rewraps_iff spec_imports
                           chrome_transport (Some sample_service) adb_error
                           "localhost" (Some 4444%N)))).
    vm_compute. reflexivity.
  - intros H.
    apply (proj1 (proj1 (handleConnectError_rewraps_iff spec_imports
                           chrome_transport (Some sample_service)
                           refused_adb_error "localhost" (Some 4444%N))))
      in H.
    vm_compute in H. discriminate H.
Defined.

Lemma prefix_self (s : string) : String.prefix s s = true.
Proof.
  induction s as [|a s IH]; [reflexivity|]. simpl.
  destruct (ascii_dec a a) as [_|N]; [exact IH|now elim N].
Qed.

Lemma includes_self (s : string) : includes s s = true.
Proof. now rewrite includes_unfold, prefix_self. Qed.

Lemma prefix_append_l (p a b : string) :
  String.prefix p a = true -> String.prefix p (a ++ b) = true.
Proof.
  revert a. induction p as [|x p IH]; intros a H.
  - now destruct (a ++ b).
  - destruct a as [|y a]; [discriminate H|]. simpl in *.
    destruct (ascii_dec x y); [now apply IH|discriminate H].
Qed.

Lemma includes_append_l (a b p : string) :
  includes a p = true -> includes (a ++ b) p = true.
Proof.
  induction a as [|x a IH]; intros H.
  - rewrite includes_unfold in H. cbn in H. rewrite orb_false_r in H.
    destruct p; [|discriminate H]. rewrite includes_unfold.
    now destruct (EmptyString ++ b).
  - cbn [includes] in H. apply orb_true_iff in H as [H|H].
    + apply includes_of_prefix.
      now apply (prefix_append_l p (String x a) b).
    + change (String x a ++ b) with (String x (a ++ b)).
      cbn [includes]. rewrite (IH H). apply orb_true_r.
Qed.

Lemma decorated_detail (imp : Imports) (this : Instance) (svc : Service)
  (err : ErrorObj) (h : string) (p : option N) :
  present (detailedErr err) = false ->
  let e := decorated (handleConnectError imp this (Some svc) err h p) in
  detailedErr e
  = Some (" Verify if " ++ serviceName this
          ++ " is configured correctly; using:" ++ newline ++ "  "
          ++ getSettingsFormatted svc ++ newline)
  /\ extraDetail e
     = Some (match getOutputFilePath svc with
             | Some path =>
                 if nonempty path then
                   newline
                   ++ "  More info might be available in the log file: "
                   ++ path
                 else
                   newline
                   ++ "  Set webdriver.log_path in your Nightwatch config to retrieve more logs from "
                   ++ serviceName this ++ "."
             | None =>
                 newline
                 ++ "  Set webdriver.log_path in your Nightwatch config to retrieve more logs from "
                 ++ serviceName this ++ "."
             end).
Proof.
  intros Hd. unfold handleConnectError.
  destruct (code_is err "ECONNREFUSED"); cbn -[append includes];
    rewrite Hd; cbn -[append includes];
    repeat match goal with
           | |- context [if ?c then _ else _] =>
               lazymatch c with
               | context [nonempty] => fail
               | _ => destruct c
               end
           end; cbn -[append includes]; split; reflexivity.
Qed.

(** X25: the detail that is attached tells where to look: with an active
    driver service and no detail on the input, the decorated error carries
    the formatted settings of the service, and its extra detail names the
    log file of the service when there is one and the [webdriver.log_path]
    setting otherwise. *)
Theorem handleConnectError_detail (imp : Imports) (this : Instance)
  (svc : Service) (err : ErrorObj) (h : string) (p : option N) :
  present (detailedErr err) = false ->
  let e := decorated (handleConnectError imp this (Some svc) err h p) in
  (exists detail,
      detailedErr e = Some detail
      /\ includes detail (getSettingsFormatted svc) = true)
  /\ (exists extra,
         extraDetail e = Some extra
         /\ (forall path,
                getOutputFilePath svc = Some path -> nonempty path = true ->
                includes extra path = true)
         /\ (present (getOutputFilePath svc) = false ->
             includes extra "webdriver.log_path" = true)).
Proof.
  intros Hd. cbv zeta.
  destruct (decorated_detail imp this svc err h p Hd) as [H1 H2].
  cbv zeta in H1, H2. rewrite H1, H2. split.
  - eexists. split; [reflexivity|].
    do 5 apply includes_skip. apply includes_here.
  - eexists. split; [reflexivity|]. unfold present. split.
    + intros path Hp Hn. rewrite Hp, Hn.
      do 2 apply includes_skip. apply includes_self.
    + intros Hp. destruct (getOutputFilePath svc) as [path|];
        [rewrite Hp|];
        apply includes_skip, includes_append_l; reflexivity.
Qed.

Lemma handleConnectError_detail_witness :
  let e := decorated (handleConnectError spec_imports chrome_transport
                        (Some logging_service) window_error "localhost"
                        (Some 4444%N)) in
  (exists detail,
      detailedErr e = Some detail
      /\ includes detail "{ port: 9515 }" = true)
  /\ (exists extra,
         extraDetail e = Some extra
         /\ (forall path,
                getOutputFilePath logging_service = Some path ->
                nonempty path = true -> includes extra path = true)
         /\ (present (getOutputFilePath logging_service) = false ->
             includes extra "webdriver.log_path" = true)).
Proof.
  apply (handleConnectError_detail spec_imports chrome_transport
           logging_service window_error "localhost" (Some 4444%N)).
  reflexivity.
Defined.

(** ** Element references *)

Lemma props_get_single (key : string) (v : JsValue) :
  props_get [(key, v)] key = v.
Proof. cbn. now rewrite String.eqb_refl. Qed.

Lemma fold_ids_throw (key : string) (items : list JsValue) (e : ErrorObj) :
  fold_left
    (fun prev item =>
       obind prev (fun prev =>
       obind (js_get item key) (fun id => Return (prev ++ [id])%list)))
    items (Throw e)
  = Throw e.
Proof. induction items as [|item r IH]; [reflexivity|exact IH]. Qed.

Lemma fold_ids_elements (key : string) (ids acc : list JsValue) :
  fold_left
    (fun prev item =>
       obind prev (fun prev =>
       obind (js_get item key) (fun id => Return (prev ++ [id])%list)))
    (map (fun v => JObj [(key, v)]) ids) (Return acc)
  = Return (acc ++ ids)%list.
Proof.
  revert acc. induction ids as [|v ids IH]; intros acc; cbn.
  - now rewrite app_nil_r.
  - rewrite String.eqb_refl, IH. now rewrite <- app_assoc.
Qed.

Lemma fold_ids_length (key : string) (items acc ids : list JsValue) :
  fold_left
    (fun prev item =>
       obind prev (fun prev =>
       obind (js_get item key) (fun id => Return (prev ++ [id])%list)))
    items (Return acc)
  = Return ids ->
  length ids = length acc + length items.
Proof.
  revert acc. induction items as [|item r IH]; intros acc H; cbn in H.
  - injection H as <-. cbn. lia.
  - destruct (js_get item key) as [id|e]; cbn in H.
    + apply IH in H. rewrite length_app in H. cbn in *. lia.
    + rewrite fold_ids_throw in H. discriminate H.
Qed.

Lemma fold_ids_null (key : string) (items acc : list JsValue) :
  (exists item, In item items /\ (item = JNull \/ item = JUndefined)) ->
  exists e,
    fold_left
      (fun prev item =>
         obind prev (fun prev =>
         obind (js_get item key) (fun id => Return (prev ++ [id])%list)))
      items (Return acc)
    = Throw e.
Proof.
  revert acc. induction items as [|item r IH]; intros acc [x [Hin Hx]];
    [destruct Hin|].
  cbn. destruct Hin as [->|Hin].
  - destruct Hx as [-> | ->]; cbn; rewrite fold_ids_throw; eexists;
      reflexivity.
  - destruct (js_get item key) as [id|e]; cbn.
    + apply IH. now exists x.
    + rewrite fold_ids_throw. now exists e.
Qed.

(** X26: wrapping an element id and reading it back is the identity: for
    every element key, [getElementId (toElement v)] is [v], and
    [mapWebElementIds] maps an array of wrapped ids back to the array of the
    ids, in order. *)
Theorem element_round_trip (WEB_ELEMENT_ID : string) (st : State) :
  (forall v,
      getElementId WEB_ELEMENT_ID st (toElement WEB_ELEMENT_ID st v)
      = Return v)
  /\ (forall ids,
         mapWebElementIds WEB_ELEMENT_ID st
           (JArr (map (toElement WEB_ELEMENT_ID st) ids))
         = Return (JArr ids)).
Proof.
  split.
  - intros v. unfold getElementId, toElement, js_get.
    now rewrite props_get_single.
  - intros ids. unfold mapWebElementIds, getElementId, toElement.
    now rewrite fold_ids_elements.
Qed.

(** X27: [mapWebElementIds] returns a value that is not an array as it is;
    of an array it returns an array of the same length, an item without the
    element key giving [undefined]; and it throws when an item of the array
    is [null] or [undefined]. *)
Theorem mapWebElementIds_cases (WEB_ELEMENT_ID : string) (st : State) :
  (forall v, (forall items, v <> JArr items) ->
             mapWebElementIds WEB_ELEMENT_ID st v = Return v)
  /\ (forall items r,
         mapWebElementIds WEB_ELEMENT_ID st (JArr items) = Return r ->
         exists ids, r = JArr ids /\ length ids = length items)
  /\ (forall props,
         props_get props (elementKey WEB_ELEMENT_ID st) = JUndefined ->
         mapWebElementIds WEB_ELEMENT_ID st (JArr [JObj props])
         = Return (JArr [JUndefined]))
  /\ (forall items,
         (exists item, In item items
                       /\ (item = JNull \/ item = JUndefined)) ->
         exists e,
           mapWebElementIds WEB_ELEMENT_ID st (JArr items) = Throw e).
Proof.
  repeat split.
  - intros v Hv. destruct v; try reflexivity. now elim (Hv items).
  - intros items r. unfold mapWebElementIds, getElementId.
    destruct (fold_left _ items (Return [])) as [ids|e] eqn:E; cbn;
      [|discriminate].
    intros H. injection H as <-. exists ids. split; [reflexivity|].
    now apply (fold_ids_length _ _ _ _ E).
  - intros props H. unfold mapWebElementIds, getElementId. cbn.
    now rewrite H.
  - intros items H. unfold mapWebElementIds, getElementId.
    destruct (fold_ids_null (elementKey WEB_ELEMENT_ID st) items [] H)
      as [e He].
    exists e. now rewrite He.
Qed.

Lemma mapWebElementIds_cases_witness :
  mapWebElementIds w3c_element_key initial_state (JStr "no elements")
  = Return (JStr "no elements")
  /\ (exists e,
         mapWebElementIds w3c_element_key initial_state
           (JArr [JObj [(w3c_element_key, JStr "e1")]; JNull])
         = Throw e).
Proof.
  split.
  - apply (proj1 (mapWebElementIds_cases w3c_element_key initial_state)).
    intros items. discriminate.
  - apply (proj2 (proj2 (proj2
             (mapWebElementIds_cases w3c_element_key initial_state)))).
    exists JNull. split; [right; now left|now left].
Defined.

(** ** Results *)

(** X28: the helpers agree on a result: one that [isRetryableElementError]
    accepts is never a success for [isResultSuccess]; a result is a success
    exactly when what [getErrorResponse] returns for it is not an [Error],
    be it [undefined] or some other value, and its status is not -1; and a
    missing result counts as a success. *)
Theorem isResultSuccess_agrees (this : Instance) (r : Response) :
  (isRetryableElementError this (as_result r) = true ->
   isResultSuccess (Some r) = false)
  /\ (isResultSuccess (Some r) = true <->
      (exists v, getErrorResponse_value r = NotError v)
      /\ forall error, r <> ResponseObject error (Some (-1)%Z))
  /\ getErrorResponse (as_result r)
     = match getErrorResponse_value r with
       | IsError e => Some e
       | NotError _ => None
       end
  /\ isResultSuccess None = true.
Proof.
  repeat split.
  - unfold isRetryableElementError, isResultSuccess.
    destruct r as [e|[e|v] status]; cbn; try reflexivity; discriminate.
  - destruct r as [e|[e|v] status]; cbn in *; try discriminate. now exists v.
  - destruct r as [e|[e|v] [n|]]; cbn in *; try discriminate.
    intros error E. injection E as _ ->. discriminate H.
  - intros [[v Hv] Hs]. unfold isResultSuccess.
    destruct r as [e|[e|v'] [n|]]; cbn in *; try discriminate;
      try reflexivity.
    destruct (n =? -1)%Z eqn:E; [|reflexivity].
    apply Z.eqb_eq in E. subst n. now elim (Hs (NotError v')).
  - now destruct r as [e|[e|v] status].
Qed.

Lemma isResultSuccess_agrees_witness :
  isResultSuccess (Some (ResponseObject (IsError stale_error) (Some 0%Z)))
  = false
  /\ isResultSuccess
       (Some (ResponseObject (NotError (JStr "boom")) (Some 0%Z)))
     = true.
Proof.
  split.
  - apply (proj1 (isResultSuccess_agrees chrome_transport
                    (ResponseObject (IsError stale_error) (Some 0%Z)))).
    reflexivity.
  - apply (proj2 (proj1 (proj2 (isResultSuccess_agrees chrome_transport
                    (ResponseObject (NotError (JStr "boom"))
                       (Some 0%Z)))))).
    split; [now exists (JStr "boom")|discriminate].
Defined.
